(** * Config reader: typed value mappings, format parsers and the cached reader

    A shallow embedding of [config_reader.py]: the [Config] dictionary with
    dotted-path access and typed getters, the three format parsers with the
    parser registry, and [CachedConfigReader] with its per-directory
    instance registry and per-reader file cache.

    Python values are a tagged inductive type, dictionaries are stdpp
    [gmap]s with string keys, exceptions are an error type threaded through
    a [result], and the mutable process state (reader instances, cached
    [Config] objects) is an explicit store with locations, so that object
    identity can be stated. *)

From Stdlib Require Import ZArith String Ascii Floats.SpecFloat.
From stdpp Require Import base option gmap strings list.

Set Warnings "-register-all".
Local Open Scope string_scope.
Local Open Scope Z_scope.

(** ** Python values and exceptions *)

(** The values a configuration tree holds: [None], booleans, integers,
    floats (IEEE binary64, as [spec_float]), strings, lists and
    dictionaries keyed by strings. *)
Inductive pyval : Type :=
  | VNone
  | VBool (b : bool)
  | VInt (z : Z)
  | VFloat (f : spec_float)
  | VStr (s : string)
  | VList (l : list pyval)
  | VDict (m : gmap string pyval).

(** A [Config] is a [dict] subclass: at top level it is a dictionary. *)
Abbreviation Config := (gmap string pyval).

(** The exceptions the module raises or lets through. [LibraryError]
    stands for the parse errors of the yaml and ConfigParser libraries. *)
Inductive exn : Type :=
  | KeyError (key : string)
  | TypeError
  | ValueError (msg : string)
  | OverflowError
  | IOError (path : string)
  | ConfigurationError (msg : string) (path : string)
  | LibraryError (msg : string).

Inductive result (A : Type) : Type :=
  | Ok (a : A)
  | Raise (e : exn).
Arguments Ok {A} a.
Arguments Raise {A} e.

Definition rbind {A B} (r : result A) (k : A -> result B) : result B :=
  match r with
  | Ok a => k a
  | Raise e => Raise e
  end.

Notation "x <- r ;; k" := (rbind r (fun x => k))
  (at level 100, r at next level, right associativity).

(** ** String helpers used by the module *)

Definition dot : ascii := "."%char.

(** [key.split('.')]: never empty, ["a..b"] gives [["a"; ""; "b"]]. *)
Fixpoint split_dot (s : string) : list string :=
  match s with
  | EmptyString => [EmptyString]
  | String c s' =>
      if Ascii.eqb c dot then EmptyString :: split_dot s'
      else match split_dot s' with
           | h :: t => String c h :: t
           | [] => [String c EmptyString]
           end
  end.

(** [path.rsplit('.', 1)[1]]: the text after the last dot; [None] is the
    [IndexError] of a path with no dot. *)
Fixpoint rsplit_dot_1 (s : string) : option string :=
  match s with
  | EmptyString => None
  | String c s' =>
      match rsplit_dot_1 s' with
      | Some t => Some t
      | None => if Ascii.eqb c dot then Some s' else None
      end
  end.

Definition is_space (c : ascii) : bool :=
  let n := nat_of_ascii c in
  (Nat.eqb n 32 || (Nat.leb 9 n && Nat.leb n 13))%bool.

Fixpoint lstrip (s : string) : string :=
  match s with
  | String c s' => if is_space c then lstrip s' else s
  | EmptyString => EmptyString
  end.

Fixpoint string_rev_onto (s acc : string) : string :=
  match s with
  | EmptyString => acc
  | String c s' => string_rev_onto s' (String c acc)
  end.

Definition strip (s : string) : string :=
  let r := lstrip (string_rev_onto (lstrip s) EmptyString) in
  string_rev_onto r EmptyString.

Definition digit_of (c : ascii) : option Z :=
  let n := nat_of_ascii c in
  if (Nat.leb 48 n && Nat.leb n 57)%bool then Some (Z.of_nat (n - 48)) else None.

Fixpoint digits_value (s : string) (acc : Z) : option Z :=
  match s with
  | EmptyString => Some acc
  | String c s' =>
      match digit_of c with
      | Some d => digits_value s' (10 * acc + d)
      | None => None
      end
  end.

(** The decimal literals [int(str)] accepts: surrounding white space, an
    optional sign, at least one digit. *)
Definition int_literal (s : string) : option Z :=
  match strip s with
  | EmptyString => None
  | String c rest =>
      if Ascii.eqb c "-"%char then
        match rest with
        | EmptyString => None
        | _ => Z.opp <$> digits_value rest 0
        end
      else if Ascii.eqb c "+"%char then
        match rest with
        | EmptyString => None
        | _ => digits_value rest 0
        end
      else digits_value (String c rest) 0
  end.

(** ** [repr] of a string and the message of a failed [int] *)

Definition backslash : ascii := "092"%char.
Definition single_quote : ascii := "039"%char.
Definition double_quote : ascii := "034"%char.

Fixpoint has_char (c : ascii) (s : string) : bool :=
  match s with
  | EmptyString => false
  | String c' s' => (Ascii.eqb c c' || has_char c s')%bool
  end.

(** A hexadecimal digit, in lower case *)
Definition hex_digit (n : nat) : ascii :=
  ascii_of_nat (if Nat.ltb n 10 then 48 + n else 87 + n).

(** One character inside [repr(s)], for the quote [q] in use *)
Definition repr_char (q c : ascii) : string :=
  let n := nat_of_ascii c in
  if (Ascii.eqb c q || Ascii.eqb c backslash)%bool
  then String backslash (String c EmptyString)
  else if Nat.eqb n 9 then String backslash "t"
  else if Nat.eqb n 10 then String backslash "n"
  else if Nat.eqb n 13 then String backslash "r"
  else if (Nat.ltb n 32 || Nat.leb 127 n)%bool
  then String backslash
         (String "x"%char
            (String (hex_digit (n / 16)) (String (hex_digit (n mod 16)) EmptyString)))
  else String c EmptyString.

Fixpoint repr_body (q : ascii) (s : string) : string :=
  match s with
  | EmptyString => EmptyString
  | String c s' => repr_char q c ++ repr_body q s'
  end.

(** [repr(s)] for a byte string: single quotes, unless the string has a
    single quote and no double quote. *)
Definition py_repr (s : string) : string :=
  let q := if (has_char single_quote s && negb (has_char double_quote s))%bool
           then double_quote else single_quote in
  String q (repr_body q s ++ String q EmptyString).

(** The string as C sees it: up to the first null byte *)
Fixpoint until_nul (s : string) : string :=
  match s with
  | EmptyString => EmptyString
  | String c s' =>
      if Nat.eqb (nat_of_ascii c) 0 then EmptyString else String c (until_nul s')
  end.

Fixpoint string_take (n : nat) (s : string) : string :=
  match n, s with
  | S n', String c s' => String c (string_take n' s')
  | _, _ => EmptyString
  end.

(** The message of the [ValueError] of [int(s)]: the literal is shown
    by [repr], without its leading white space, cut at a null byte and
    at 200 characters; a literal that is fine up to a null byte gets a
    message of its own. *)
Definition int_error_message (s : string) : string :=
  let cs := until_nul s in
  if (negb (String.eqb cs s) && bool_decide (is_Some (int_literal cs)))%bool
  then "null byte in argument for int()"
  else "invalid literal for int() with base 10: "
         ++ py_repr (string_take 200 (lstrip cs)).

(** ** Numeric conversions: the builtins [int] and [float] *)

(** [float(n)] for an integer: round to nearest binary64; too large an
    integer overflows. *)
Definition float_of_Z (z : Z) : result spec_float :=
  match binary_normalize 53 1024 z 0 false with
  | S754_infinity _ => Raise OverflowError
  | f => Ok f
  end.

(** [int(x)] for a float: truncation toward zero. *)
Definition Z_of_float (f : spec_float) : result Z :=
  match f with
  | S754_zero _ => Ok 0
  | S754_infinity _ => Raise OverflowError
  | S754_nan => Raise (ValueError "cannot convert float NaN to integer")
  | S754_finite s m e =>
      let mag := match e with
                 | Z0 => Z.pos m
                 | Zpos p => Z.pos m * 2 ^ Z.pos p
                 | Zneg p => Z.pos m / 2 ^ Z.pos p
                 end in
      Ok (if s then - mag else mag)
  end.

Section Getters.

(** The decimal-to-binary conversion of [float(str)] belongs to the C
    library; [None] is a string that is not a float literal. *)
Variable float_literal : string -> option spec_float.

Definition py_int (v : pyval) : result pyval :=
  match v with
  | VInt z => Ok (VInt z)
  | VBool b => Ok (VInt (if b then 1 else 0))
  | VFloat f => z <- Z_of_float f ;; Ok (VInt z)
  | VStr s =>
      match int_literal s with
      | Some z => Ok (VInt z)
      | None => Raise (ValueError (int_error_message s))
      end
  | VNone | VList _ | VDict _ => Raise TypeError
  end.

Definition py_float (v : pyval) : result pyval :=
  match v with
  | VFloat f => Ok (VFloat f)
  | VInt z => f <- float_of_Z z ;; Ok (VFloat f)
  | VBool b => f <- float_of_Z (if b then 1 else 0) ;; Ok (VFloat f)
  | VStr s =>
      match float_literal s with
      | Some f => Ok (VFloat f)
      | None => Raise (ValueError ("could not convert string to float: " ++ s))
      end
  | VNone | VList _ | VDict _ => Raise TypeError
  end.

(** ** [Config]: dotted-path lookup and typed getters *)

(** [dict.__getitem__(r, k)]: the unbound method demands a [dict]
    receiver and raises [TypeError] on anything else; a missing key is a
    [KeyError]. *)
Definition dict_getitem (r : pyval) (k : string) : result pyval :=
  match r with
  | VDict m =>
      match m !! k with
      | Some v => Ok v
      | None => Raise (KeyError k)
      end
  | _ => Raise TypeError
  end.

(** The loop of [Config.__getitem__] over the segments of the key. *)
Fixpoint descend (r : pyval) (ks : list string) : result pyval :=
  match ks with
  | [] => Ok r
  | k :: ks' => r' <- dict_getitem r k ;; descend r' ks'
  end.

Definition getitem (self : Config) (key : string) : result pyval :=
  descend (VDict self) (split_dot key).

(** [Config.get]: only [KeyError] is turned into the default. *)
Definition get (self : Config) (k : string) (d : pyval) : result pyval :=
  match getitem self k with
  | Raise (KeyError _) => Ok d
  | r => r
  end.

(** [d == 'raise'] *)
Definition is_raise (d : pyval) : bool :=
  match d with
  | VStr s => String.eqb s "raise"
  | _ => false
  end.

(** [Config.get_int]: only [TypeError], whether from the lookup or from
    [int], reaches the handler. *)
Definition get_int (self : Config) (k : string) (d : pyval) : result pyval :=
  match (v <- get self k d ;; py_int v) with
  | Raise TypeError =>
      if is_raise d then Raise (ValueError ("Not a leaf or not an integer: " ++ k))
      else Ok d
  | r => r
  end.

Definition get_float (self : Config) (k : string) (d : pyval) : result pyval :=
  match (v <- get self k d ;; py_float v) with
  | Raise TypeError =>
      if is_raise d then Raise (ValueError ("Not a leaf or not a float: " ++ k))
      else Ok d
  | r => r
  end.

End Getters.

(** ** More string helpers: paths and first-line sniffing *)

Definition startswith (c : ascii) (s : string) : bool :=
  match s with
  | String c' _ => Ascii.eqb c c'
  | EmptyString => false
  end.

Fixpoint endswith (c : ascii) (s : string) : bool :=
  match s with
  | EmptyString => false
  | String c' EmptyString => Ascii.eqb c c'
  | String _ s' => endswith c s'
  end.

(** [posixpath.join(a, b)] *)
Definition os_path_join (a b : string) : string :=
  if startswith "/"%char b then b
  else if (String.eqb a "" || endswith "/"%char a)%bool then a ++ b
  else a ++ "/" ++ b.

Definition lower_ascii (c : ascii) : ascii :=
  let n := nat_of_ascii c in
  if (Nat.leb 65 n && Nat.leb n 90)%bool then ascii_of_nat (n + 32) else c.

Fixpoint lower (s : string) : string :=
  match s with
  | EmptyString => EmptyString
  | String c s' => String (lower_ascii c) (lower s')
  end.

(** [f.readline()]: up to and including the first newline. *)
Fixpoint readline (s : string) : string :=
  match s with
  | EmptyString => EmptyString
  | String c s' =>
      if Ascii.eqb c "010"%char then String c EmptyString
      else String c (readline s')
  end.

(** [k in line] for strings *)
Fixpoint contains (k line : string) : bool :=
  (String.prefix k line ||
   match line with
   | EmptyString => false
   | String _ rest => contains k rest
   end)%bool.

(** ** The world outside the module *)

(** A file system as the module sees it: the text of each readable file;
    [None] is a missing or unreadable file. *)
Definition filesystem := string -> option string.

(** [open(file, 'r')] followed by reading *)
Definition open_read (fs : filesystem) (file : string) : result string :=
  match fs file with
  | Some text => Ok text
  | None => Raise (IOError file)
  end.

(** What the module takes from libraries and from the interpreter. The
    grammars of the three formats are not part of this development. *)
Record Extern : Type := {
  (** [yaml.safe_load] on the text of a file *)
  yaml_safe_load : string -> result pyval;
  (** [RawConfigParser._read] on the text of a file: the [_sections]
      it leaves behind, each with the [__name__] key the library adds *)
  ini_read : string -> result (gmap string (gmap string pyval));
  (** the JSON decoder, on a string *)
  json_decode : string -> result pyval;
  (** [dict(seq)] on a sequence of key/value pairs *)
  dict_of_items : list pyval -> result Config;
  (** [os.path.abspath] under the current working directory *)
  abspath : string -> string;
  (** the order in which [parsers_dict.iteritems()] yields the keys *)
  iteritems_order : list string
}.

(** What can be handed to [json.loads]: a string, or, as [json_parser]
    does, an open file object. *)
Inductive loads_arg : Type :=
  | TextArg (s : string)
  | FileArg (path : string).

(** The parser callables a reader can hold and call: the three
    module-level functions, as function identities, and [yaml_parser]
    bound to a reader instance, which is what the class attribute
    [default_parser], a plain function stored in the class, turns into
    when it is read through an instance. *)
Inductive parser_fn : Type :=
  | YamlParser
  | IniParser
  | JsonParser
  | BoundYamlParser.

(** [p in parsers_set]: a bound method is equal to none of the three
    functions. *)
Definition parsers_set (p : parser_fn) : bool :=
  match p with
  | YamlParser | IniParser | JsonParser => true
  | BoundYamlParser => false
  end.

#[global] Instance parser_fn_eq_dec : EqDecision parser_fn.
Proof. solve_decision. Defined.

(** [parsers_dict] *)
Definition parsers_dict : gmap string parser_fn :=
  <["yaml" := YamlParser]> (<["ini" := IniParser]>
    (<["conf" := IniParser]> (<["json" := JsonParser]> ∅))).

(** The [parser] argument of [get_instance] and [read_config]: [None], a
    string, one of the parser callables above, or any other callable. *)
Inductive parser_arg : Type :=
  | ArgNone
  | ArgName (name : string)
  | ArgFn (p : parser_fn)
  | ArgCallable (id : nat).

(** Truth value of a [parser] argument in [if parser:] *)
Definition truthy (parser : parser_arg) : bool :=
  match parser with
  | ArgNone => false
  | ArgName name => negb (String.eqb name "")
  | ArgFn _ | ArgCallable _ => true
  end.

Section Parsers.

Context (E : Extern).

(** [json.loads(s)]: anything but a string is a [TypeError]. *)
Definition json_loads (x : loads_arg) : result pyval :=
  match x with
  | TextArg s => json_decode E s
  | FileArg _ => Raise TypeError
  end.

(** [Config(x)], that is [dict(x)] *)
Definition Config_new (x : pyval) : result Config :=
  match x with
  | VDict m => Ok m
  | VList l => dict_of_items E l
  | VStr EmptyString => Ok ∅
  | VStr _ =>
      Raise (ValueError "dictionary update sequence element #0 has length 1; 2 is required")
  | VNone | VBool _ | VInt _ | VFloat _ => Raise TypeError
  end.

Definition yaml_parser (fs : filesystem) (file : string) : result Config :=
  f <- open_read fs file ;;
  v <- yaml_safe_load E f ;;
  Config_new v.

(** [del s['__name__']] for every section *)
Definition del_names (sections : gmap string (gmap string pyval))
  : result (gmap string (gmap string pyval)) :=
  if decide (map_Forall (fun _ s => is_Some (s !! "__name__")) sections)
  then Ok (delete "__name__" <$> sections)
  else Raise (KeyError "__name__").

Definition ini_parser (fs : filesystem) (file : string) : result Config :=
  f <- open_read fs file ;;
  sections <- ini_read E f ;;
  sections' <- del_names sections ;;
  Config_new (VDict (VDict <$> sections')).

(** [json_parser] passes the file object itself to [json.loads]. *)
Definition json_parser (fs : filesystem) (file : string) : result Config :=
  f <- open_read fs file ;;
  v <- json_loads (FileArg file) ;;
  Config_new v.

(** Calling a parser with the path, as [read_config] does. The bound
    method passes the reader as the one argument [yaml_parser] takes and
    the path as a second one, which is a [TypeError] before the file is
    touched. *)
Definition call_parser (p : parser_fn) : filesystem -> string -> result Config :=
  match p with
  | YamlParser => yaml_parser
  | IniParser => ini_parser
  | JsonParser => json_parser
  | BoundYamlParser => fun _ _ => Raise TypeError
  end.

End Parsers.

(** ** [CachedConfigReader] *)

(** Objects live in a store and are named by their location; a location
    is never reused, so equal locations are identical objects. *)
Abbreviation loc := nat.

(** An instance: its directory, its default parser, and its cache from
    file name to the cached [Config] object. *)
Record reader : Type := Reader {
  config_dir : string;
  default_parser : parser_fn;
  cache : gmap string loc
}.

(** The process state: the class attribute [dir_cache], the reader
    instances, the [Config] objects, and a log of the parser calls made
    by [read_config] (parser and path, oldest first). *)
Record world : Type := World {
  dir_cache : gmap string loc;
  readers : list reader;
  configs : list Config;
  parse_log : list (parser_fn * string)
}.

Definition empty_world : world := World ∅ [] [] [].

Definition set_cache (rd : reader) (c : gmap string loc) : reader :=
  Reader (config_dir rd) (default_parser rd) c.

Definition set_reader (self : loc) (rd : reader) (w : world) : world :=
  World (dir_cache w) (<[self := rd]> (readers w)) (configs w) (parse_log w).

Definition log_call (p : parser_fn) (path : string) (w : world) : world :=
  World (dir_cache w) (readers w) (configs w) (parse_log w ++ [(p, path)]).

(** [self.cache[config] = c] for a new object [c], then
    [return self.cache[config]] *)
Definition store_config (self : loc) (rd : reader) (config : string) (c : Config)
    (w : world) : result loc * world :=
  let l := length (configs w) in
  (Ok l,
   World (dir_cache w)
         (<[self := set_cache rd (<[config := l]> (cache rd))]> (readers w))
         (configs w ++ [c])
         (parse_log w)).

(** What [self.default_parser] evaluates to while the instance has no
    attribute of that name: the class attribute [yaml_parser], bound to
    the instance. *)
Definition class_default_parser : parser_fn := BoundYamlParser.

(** [get_parser], given what [self.default_parser] evaluates to. A
    callable outside [parsers_set] is looked up in [parsers_dict] like a
    name and is not found. *)
Definition get_parser (self_default : parser_fn) (parser : parser_arg)
    : result parser_fn :=
  match parser with
  | ArgNone => Ok self_default
  | ArgFn p => if parsers_set p then Ok p else Raise (KeyError "<bound method>")
  | ArgName name =>
      match parsers_dict !! name with
      | Some p => Ok p
      | None => Raise (KeyError name)
      end
  | ArgCallable _ => Raise (KeyError "<function>")
  end.

(** [__init__]: while [get_parser] runs the instance has no
    [default_parser] of its own yet, so with [parser=None] what is
    stored is the class attribute as read through the instance. *)
Definition init (config_dir : string) (parser : parser_arg) : result reader :=
  p <- get_parser class_default_parser parser ;;
  Ok (Reader config_dir p ∅).

Section Reader.

Context (E : Extern).

(** The scan of the first comment line: the first key, in iteration
    order, that occurs in the line. *)
Fixpoint sniff (keys : list string) (first_line : string) (dflt : parser_fn)
    : parser_fn :=
  match keys with
  | [] => dflt
  | k :: keys' =>
      if contains k first_line
      then default dflt (parsers_dict !! k)
      else sniff keys' first_line dflt
  end.

Definition get_parser_from_file (fs : filesystem) (self : reader) (path : string)
    : result parser_fn :=
  match rsplit_dot_1 path ≫= (parsers_dict !!.) with
  | Some p => Ok p
  | None =>
      f <- open_read fs path ;;
      let first_line := lower (readline f) in
      if startswith "#"%char first_line
      then Ok (sniff (iteritems_order E) first_line (default_parser self))
      else Ok (default_parser self)
  end.

(** [get_instance] *)
Definition get_instance (config_dir : string) (parser : parser_arg) (w : world)
    : result loc * world :=
  let path := abspath E config_dir in
  match dir_cache w !! path with
  | Some l => (Ok l, w)
  | None =>
      match init path parser with
      | Raise e => (Raise e, w)
      | Ok rd =>
          let l := length (readers w) in
          (Ok l,
           World (<[path := l]> (dir_cache w)) (readers w ++ [rd])
                 (configs w) (parse_log w))
      end
  end.

(** The two branches that choose the parser in [read_config] *)
Definition resolve_parser (fs : filesystem) (self : reader) (path : string)
    (parser : parser_arg) : result parser_fn :=
  if truthy parser then get_parser (default_parser self) parser
  else get_parser_from_file fs self path.

(** The body of the [try]: the parsed [Config] or the exception, and
    the world with the parser call logged. *)
Definition try_parse (fs : filesystem) (self : reader) (path : string)
    (parser : parser_arg) (w : world) : result Config * world :=
  match resolve_parser fs self path parser with
  | Raise e => (Raise e, w)
  | Ok p => (call_parser E p fs path, log_call p path w)
  end.

(** [read_config]. A method call on a location that holds no reader
    cannot be written in Python: it is [None] here. *)
Definition read_config (fs : filesystem) (self : loc) (config : string)
    (parser : parser_arg) (dflt : pyval) (w : world)
    : option (result loc * world) :=
  rd ← readers w !! self;
  Some
    match cache rd !! config with
    | Some l => (Ok l, w)
    | None =>
        let path := os_path_join (config_dir rd) config in
        match try_parse fs rd path parser w with
        | (Ok c, w1) => store_config self rd config c w1
        | (Raise (IOError _), w1) =>
            if is_raise dflt
            then (Raise (ConfigurationError "Configuration file not found: %s" path), w1)
            else match Config_new E dflt with
                 | Ok c => store_config self rd config c w1
                 | Raise e => (Raise e, w1)
                 end
        | (Raise e, w1) => (Raise e, w1)
        end
    end.

(** Truth value of [config] in [if config:] *)
Definition truthy_name (config : option string) : option string :=
  match config with
  | Some EmptyString => None
  | c => c
  end.

(** [reload], also bound as [reset] and [clear] *)
Definition reload (self : loc) (config : option string) (w : world)
    : option (result unit * world) :=
  rd ← readers w !! self;
  Some
    match truthy_name config with
    | Some name =>
        match cache rd !! name with
        | Some _ => (Ok (), set_reader self (set_cache rd (delete name (cache rd))) w)
        | None => (Raise (KeyError name), w)
        end
    | None => (Ok (), set_reader self (set_cache rd ∅) w)
    end.

Definition reset := reload.
Definition clear := reload.

End Reader.

(** ** Sequences of calls *)

(** The calls a client can make on the module, each file-reading call
    with the file system as it is at that moment. *)
Inductive call : Type :=
  | GetInstance (config_dir : string) (parser : parser_arg)
  | ReadConfig (fs : filesystem) (self : loc) (config : string)
      (parser : parser_arg) (dflt : pyval)
  | Reload (self : loc) (config : option string).

Section Runs.

Context (E : Extern).

(** One call, its result dropped: an exception leaves the client with
    the state as it was when it was raised. *)
Definition step (c : call) (w : world) : option world :=
  match c with
  | GetInstance d p => Some (get_instance E d p w).2
  | ReadConfig fs self config p d => snd <$> read_config E fs self config p d w
  | Reload self config => snd <$> reload self config w
  end.

Fixpoint run (cs : list call) (w : world) : option world :=
  match cs with
  | [] => Some w
  | c :: cs' => w' ← step c w; run cs' w'
  end.

(** A call that is not [self.reload(...)] *)
Definition not_reload_of (self : loc) (c : call) : Prop :=
  match c with
  | Reload self' _ => self' ≠ self
  | _ => True
  end.

End Runs.

(** ** Concrete data for examples *)

(** The mapping [{"a": {"b": {"c": 5}}}] *)
Definition abc_config : Config :=
  {[ "a" := VDict {[ "b" := VDict {[ "c" := VInt 5 ]} ]} ]}.

(** The mapping [{"n": "abc"}] *)
Definition n_abc_config : Config := {[ "n" := VStr "abc" ]}.

(** A small stand-in for the libraries, enough to run examples: the yaml
    loader knows the documents [k: 1] and the empty one, the JSON decoder
    knows [{}], the INI reader knows the empty file; relative directories
    are taken under [/cwd]. *)
Definition sample_extern : Extern := {|
  yaml_safe_load text :=
    if String.eqb text "k: 1" then Ok (VDict {[ "k" := VInt 1 ]})
    else if String.eqb text "" then Ok VNone
    else Raise (LibraryError "yaml: could not parse");
  ini_read text :=
    if String.eqb text "" then Ok ∅
    else Raise (LibraryError "ini: could not parse");
  json_decode text :=
    if String.eqb text "{}" then Ok (VDict ∅)
    else Raise (ValueError "No JSON object could be decoded");
  dict_of_items l :=
    match l with
    | [] => Ok ∅
    | _ => Raise (TypeError)
    end;
  abspath d := if startswith "/"%char d then d else "/cwd/" ++ d;
  iteritems_order := ["yaml"; "ini"; "conf"; "json"]
|}.

(** The INI file with one section [db] and one option [host] *)
Definition db_ini_text : string :=
  "[db]" ++ String "010"%char "host = localhost".

(** What [RawConfigParser] leaves in [_sections] for that file *)
Definition db_ini_sections : gmap string (gmap string pyval) :=
  {[ "db" := {[ "__name__" := VStr "db"; "host" := VStr "localhost" ]} ]}.

(** The stand-in above, with an INI reader that knows that file *)
Definition db_ini_extern : Extern := {|
  yaml_safe_load := yaml_safe_load sample_extern;
  ini_read text :=
    if String.eqb text db_ini_text then Ok db_ini_sections
    else ini_read sample_extern text;
  json_decode := json_decode sample_extern;
  dict_of_items := dict_of_items sample_extern;
  abspath := abspath sample_extern;
  iteritems_order := iteritems_order sample_extern
|}.

(** A file system whose only file is [/d/db.ini], holding that text *)
Definition db_ini_file : filesystem :=
  fun path => if String.eqb path "/d/db.ini" then Some db_ini_text else None.

(** A file system with no readable file at all *)
Definition no_files : filesystem := fun _ => None.

(** A file system whose only file is [/d/a.json], holding [{}] *)
Definition one_json_file : filesystem :=
  fun path => if String.eqb path "/d/a.json" then Some "{}" else None.

(** A file system whose only file is [/d/a.json], holding the yaml
    document [k: 1] *)
Definition yaml_in_json_file : filesystem :=
  fun path => if String.eqb path "/d/a.json" then Some "k: 1" else None.

(** One reader on [/d], made with [parser=yaml_parser], with an empty
    cache *)
Definition fresh_world : world :=
  World {[ "/d" := 0%nat ]} [Reader "/d" YamlParser ∅] [] [].

(** One reader on [/d] that has cached an empty [Config] under [a.json] *)
Definition cached_world : world :=
  World {[ "/d" := 0%nat ]}
        [Reader "/d" YamlParser {[ "a.json" := 0%nat ]}] [∅] [].

(** One reader on [/d] with two cached files, one under the empty name *)
Definition two_entries_world : world :=
  World {[ "/d" := 0%nat ]}
        [Reader "/d" YamlParser {[ "" := 0%nat; "a.yaml" := 1%nat ]}]
        [∅; ∅] [].

(** ** Predicates used in the statements *)

(** The values on which [int] and [float] raise [TypeError] *)
Definition type_error_value (v : pyval) : Prop :=
  match v with
  | VNone | VList _ | VDict _ => True
  | _ => False
  end.

(** An explicit [parser] argument that stands for a parser: one of the
    functions of [parsers_set], or a key of [parsers_dict]. *)
Definition denotes (parser : parser_arg) (p : parser_fn) : Prop :=
  match parser with
  | ArgFn q => q = p ∧ parsers_set q = true
  | ArgName name => parsers_dict !! name = Some p
  | ArgNone | ArgCallable _ => False
  end.

(** The reader at [self] holds the object [l] under [name]. *)
Definition cached (w : world) (self : loc) (name : string) (l : loc) : Prop :=
  ∃ rd, readers w !! self = Some rd ∧ cache rd !! name = Some l.

(** The outcomes of [read_config]: a cache hit; a new object stored
    under the name; or an exception with the cache as it was. At most
    one parser call is logged. *)
Inductive read_outcome (self : loc) (rd : reader) (config : string)
    (w : world) : result loc → world → Prop :=
  | read_hit (l : loc) :
      cache rd !! config = Some l →
      read_outcome self rd config w (Ok l) w
  | read_stored (c : Config) (w' : world) :
      cache rd !! config = None →
      dir_cache w' = dir_cache w →
      readers w' = <[self := set_cache rd (<[config := length (configs w)]> (cache rd))]>
                     (readers w) →
      configs w' = (configs w ++ [c])%list →
      read_outcome self rd config w (Ok (length (configs w))) w'
  | read_raised (e : exn) (w' : world) :
      cache rd !! config = None →
      dir_cache w' = dir_cache w →
      readers w' = readers w →
      configs w' = configs w →
      read_outcome self rd config w (Raise e) w'.

(** ** The remaining getters of [Config] *)

(** ['.'.join(ks)] *)
Fixpoint join_dot (ks : list string) : string :=
  match ks with
  | [] => EmptyString
  | [k] => k
  | k :: ks' => k ++ "." ++ join_dot ks'
  end.

(** ['.' in s] *)
Fixpoint has_dot (s : string) : bool :=
  match s with
  | EmptyString => false
  | String c s' => (Ascii.eqb c dot || has_dot s')%bool
  end.

(** The class attribute [Config._boolean_states] as the module sets it *)
Definition default_boolean_states : gmap string bool :=
  <["yes" := true]> (<["true" := true]> (<["on" := true]>
    (<["no" := false]> (<["false" := false]> (<["off" := false]> ∅))))).

(** [add_bool_literals]: the two assignments, in order, on the table
    shared by all instances. *)
Definition add_bool_literals (true_lit false_lit : string)
    (states : gmap string bool) : gmap string bool :=
  <[false_lit := false]> (<[true_lit := true]> states).

(** [self._boolean_states[v.lower()]] inside the [try]: [None] is the
    [AttributeError] of a value with no [lower] method or the [KeyError]
    of a literal that is not in the table, which share one handler. *)
Definition boolean_literal (states : gmap string bool) (v : pyval) : option bool :=
  match v with
  | VStr s => states !! lower s
  | _ => None
  end.

(** [Config.get_boolean], also bound as [get_bool]; the lookup itself
    is outside the [try]. *)
Definition get_boolean (states : gmap string bool) (self : Config) (k : string)
    (d : pyval) : result pyval :=
  v <- get self k d ;;
  match v with
  | VBool b => Ok (VBool b)
  | _ =>
      match boolean_literal states v with
      | Some b => Ok (VBool b)
      | None =>
          if is_raise d then Raise (ValueError ("Not a leaf or not a boolean: " ++ k))
          else Ok d
      end
  end.

Definition get_bool := get_boolean.

Section GetJson.

Context (E : Extern).

(** [json.loads(v)] on a value taken from a [Config] *)
Definition json_loads_value (v : pyval) : result pyval :=
  match v with
  | VStr s => json_decode E s
  | _ => Raise TypeError
  end.

(** [Config.get_json]: only [ValueError] falls back to the default. *)
Definition get_json (self : Config) (k : string) (d : pyval) : result pyval :=
  match (v <- get self k d ;; json_loads_value v) with
  | Raise (ValueError _) => json_loads_value d
  | r => r
  end.

End GetJson.

(** ** [AutoMDDict] of [multiDict.py] *)

Section AutoMDDict.

Variables (K V : Type).

(** What a dictionary holds under a key: a plain value, or another
    [AutoMDDict] object, by reference. *)
Inductive md_item : Type :=
  | MdVal (v : V)
  | MdDict (l : loc).

Context `{Countable K}.

(** [AutoMDDict.__getitem__]: a missing key gets a new empty
    [AutoMDDict], which is stored under the key and returned. The heap
    holds the dictionaries; [None] is a call on a location that holds
    none. *)
Definition md_getitem (self : loc) (item : K) (h : list (gmap K md_item))
    : option (md_item * list (gmap K md_item)) :=
  d ← h !! self;
  Some
    match d !! item with
    | Some x => (x, h)
    | None =>
        let l := length h in
        (MdDict l, <[self := <[item := MdDict l]> d]> (h ++ [∅])%list)
    end.

(** The inherited [dict.__setitem__] *)
Definition md_setitem (self : loc) (item : K) (x : md_item)
    (h : list (gmap K md_item)) : option (list (gmap K md_item)) :=
  d ← h !! self;
  Some (<[self := <[item := x]> d]> h).

End AutoMDDict.

Arguments MdVal {V} v.
Arguments MdDict {V} l.
Arguments md_getitem {K V _ _} self item h.
Arguments md_setitem {K V _ _} self item x h.

(** ** Invariants of the reader state *)

(** Every registered directory names a live reader rooted at that
    directory. *)
Definition registry_ok (w : world) : Prop :=
  ∀ path l, dir_cache w !! path = Some l →
    ∃ rd, readers w !! l = Some rd ∧ config_dir rd = path.

(** Every cache entry names a live [Config] object, and no object sits
    under two entries. *)
Definition caches_ok (w : world) : Prop :=
  (∀ self name l, cached w self name l → (l < length (configs w))%nat) ∧
  (∀ self name self' name' l,
     cached w self name l → cached w self' name' l →
     self = self' ∧ name = name').

(** The exceptions that are not [IOError] *)
Definition not_ioerror (e : exn) : Prop :=
  match e with
  | IOError _ => False
  | _ => True
  end.

(** * Properties *)

(** ** Dotted lookup *)

Lemma descend_non_dict (v : pyval) (k : string) (ks : list string) :
  (∀ m, v ≠ VDict m) → descend v (k :: ks) = Raise TypeError.
Proof.
  intros Hv. simpl. destruct v; try reflexivity. by destruct (Hv m).
Qed.

Lemma descend_app (r : pyval) (ks1 ks2 : list string) :
  descend r (ks1 ++ ks2)%list = (v <- descend r ks1 ;; descend v ks2).
Proof.
  revert r. induction ks1 as [|k ks1 IH]; intros r; simpl; [done|].
  destruct (dict_getitem r k); simpl; [apply IH | done].
Qed.

(** Whenever a proper prefix of the segments leads to a value that is not
    a dictionary, [get] lets the [TypeError] of the next step through,
    whatever the default. *)
Lemma get_through_leaf_raises (self : Config) (key : string)
    (ks1 : list string) (k : string) (ks2 : list string) (v d : pyval) :
  split_dot key = (ks1 ++ k :: ks2)%list →
  descend (VDict self) ks1 = Ok v →
  (∀ m, v ≠ VDict m) →
  get self key d = Raise TypeError.
Proof.
  intros Hk Hd Hv. unfold get, getitem.
  rewrite Hk, descend_app, Hd. unfold rbind at 1.
  by rewrite (descend_non_dict v k ks2 Hv).
Qed.

(** C1. On [{"a": {"b": {"c": 5}}}], [get("a.b.c")] is [5] and
    [get("a.b.x", 42)] is [42], but [get("a.b.c.d", 9)] does not return
    the default [9]: descending into the leaf [5] raises [TypeError],
    which [get] does not catch. *)
Theorem get_dotted_lookup_examples :
  get abc_config "a.b.c" VNone = Ok (VInt 5) ∧
  get abc_config "a.b.x" (VInt 42) = Ok (VInt 42) ∧
  get abc_config "a.b.c.d" (VInt 9) = Raise TypeError.
Proof. by vm_compute. Qed.

(** ** The JSON parser *)

(** C2. For a readable file whose text is a JSON document with an object
    at top level, [json_parser] does not return the document as a
    [Config]: it hands the file object to [json.loads] and the
    [TypeError] of that call is the outcome. *)
Theorem json_parser_raises_on_valid_file (E : Extern) (fs : filesystem)
    (file text : string) (m : Config) :
  fs file = Some text →
  json_decode E text = Ok (VDict m) →
  json_parser E fs file = Raise TypeError ∧ json_parser E fs file ≠ Ok m.
Proof.
  intros Hfs _. unfold json_parser, open_read. rewrite Hfs. simpl. done.
Qed.

Lemma json_parser_raises_on_valid_file_witness :
  one_json_file "/d/a.json" = Some "{}" ∧
  json_decode sample_extern "{}" = Ok (VDict ∅) ∧
  json_parser sample_extern one_json_file "/d/a.json" = Raise TypeError.
Proof.
  split; [reflexivity|]. split; [reflexivity|].
  apply (json_parser_raises_on_valid_file sample_extern one_json_file
           "/d/a.json" "{}" ∅); reflexivity.
Defined.

(** ** Numeric getters *)

(** For a key that resolves to a list, a dictionary or [None], the
    numeric getters behave as the handler says: the default comes back
    unchanged, or the sentinel turns into a [ValueError] with the key. *)
Lemma get_int_type_error (self : Config) (k : string) (v d : pyval) :
  getitem self k = Ok v → type_error_value v →
  get_int self k d =
    if is_raise d then Raise (ValueError ("Not a leaf or not an integer: " ++ k))
    else Ok d.
Proof.
  intros Hg Hv. unfold get_int, get. rewrite Hg.
  destruct v; simpl in Hv; try done.
Qed.

Lemma get_float_type_error (fl : string → option spec_float) (self : Config)
    (k : string) (v d : pyval) :
  getitem self k = Ok v → type_error_value v →
  get_float fl self k d =
    if is_raise d then Raise (ValueError ("Not a leaf or not a float: " ++ k))
    else Ok d.
Proof.
  intros Hg Hv. unfold get_float, get. rewrite Hg.
  destruct v; simpl in Hv; try done.
Qed.

(** C3. On [{"n": "abc"}] the leaf ["abc"] cannot be coerced, yet
    [get_int("n", 7)] does not return [7] and [get_int("n", "raise")]
    does not raise the error that names the key: in both cases the
    [ValueError] of [int] itself escapes, since only [TypeError] is
    caught. [get_float] does the same with the error of [float]. *)
Theorem get_int_float_string_leaf (fl : string → option spec_float) :
  fl "abc" = None →
  get_int n_abc_config "n" (VInt 7)
    = Raise (ValueError "invalid literal for int() with base 10: 'abc'") ∧
  get_int n_abc_config "n" (VStr "raise")
    = Raise (ValueError "invalid literal for int() with base 10: 'abc'") ∧
  get_float fl n_abc_config "n" (VInt 7)
    = Raise (ValueError "could not convert string to float: abc") ∧
  get_float fl n_abc_config "n" (VStr "raise")
    = Raise (ValueError "could not convert string to float: abc").
Proof.
  intros Hfl. split; [by vm_compute|]. split; [by vm_compute|].
  assert (getitem n_abc_config "n" = Ok (VStr "abc")) as Hg by (by vm_compute).
  unfold get_float, get. rewrite Hg. simpl. rewrite Hfl. done.
Qed.

Lemma get_int_float_string_leaf_witness :
  get_int n_abc_config "n" (VInt 7)
    = Raise (ValueError "invalid literal for int() with base 10: 'abc'") ∧
  get_float (fun _ => None) n_abc_config "n" (VInt 7)
    = Raise (ValueError "could not convert string to float: abc").
Proof.
  destruct (get_int_float_string_leaf (fun _ => None) eq_refl)
    as (H1 & _ & H3 & _).
  exact (conj H1 H3).
Defined.

(** ** The cached reader: what one call does to the state *)

Section ReaderFacts.

Context (E : Extern).

(** Every key of the registry leads to one of the three functions. *)
Lemma parsers_dict_registered (k : string) (p : parser_fn) :
  parsers_dict !! k = Some p → parsers_set p = true.
Proof.
  unfold parsers_dict.
  repeat (rewrite lookup_insert; case_decide; [by intros [= <-]|]).
  by rewrite lookup_empty.
Qed.

(** Every one of the three functions opens the file first. *)
Lemma call_parser_missing (p : parser_fn) (fs : filesystem) (path : string) :
  parsers_set p = true →
  fs path = None → call_parser E p fs path = Raise (IOError path).
Proof.
  intros Hp Hfs. destruct p; try done; simpl;
    unfold yaml_parser, ini_parser, json_parser, open_read; by rewrite Hfs.
Qed.

(** The [try] body touches nothing but the log, and logs exactly the
    call of the parser that the resolution yields. *)
Lemma try_parse_spec (fs : filesystem) (rd : reader) (path : string)
    (parser : parser_arg) (w w1 : world) (r : result Config) :
  try_parse E fs rd path parser w = (r, w1) →
  dir_cache w1 = dir_cache w ∧ readers w1 = readers w ∧ configs w1 = configs w ∧
  match resolve_parser E fs rd path parser with
  | Ok p => r = call_parser E p fs path ∧
            parse_log w1 = (parse_log w ++ [(p, path)])%list
  | Raise e => r = Raise e ∧ parse_log w1 = parse_log w
  end.
Proof.
  unfold try_parse. destruct (resolve_parser E fs rd path parser);
    intros [= <- <-]; simpl; done.
Qed.

(** With no explicit parser, a missing file ends the [try] body with
    [IOError], whether the extension names a parser or not. *)
Lemma try_parse_missing (fs : filesystem) (rd : reader) (path : string)
    (w : world) :
  fs path = None →
  ∃ w1, try_parse E fs rd path ArgNone w = (Raise (IOError path), w1) ∧
        dir_cache w1 = dir_cache w ∧ readers w1 = readers w ∧
        configs w1 = configs w.
Proof.
  intros Hfs. unfold try_parse, resolve_parser, get_parser_from_file. simpl.
  destruct (rsplit_dot_1 path ≫= (parsers_dict !!.)) as [p|] eqn:Hext.
  - assert (parsers_set p = true) as Hp.
    { destruct (rsplit_dot_1 path) as [ext|]; [|done].
      by eapply parsers_dict_registered. }
    rewrite (call_parser_missing p fs path Hp Hfs). eexists; split; [done|]. done.
  - unfold open_read. rewrite Hfs. simpl. eexists; split; [done|]. done.
Qed.

(** A cached name is answered from the cache: same object, same state. *)
Lemma read_config_cached (fs : filesystem) (self : loc) (rd : reader)
    (config : string) (parser : parser_arg) (d : pyval) (w : world) (l : loc) :
  readers w !! self = Some rd → cache rd !! config = Some l →
  read_config E fs self config parser d w = Some (Ok l, w).
Proof.
  intros Hrd Hc. unfold read_config. rewrite Hrd. simpl. by rewrite Hc.
Qed.

Lemma store_config_outcome (self : loc) (rd : reader) (config : string)
    (c : Config) (w w1 : world) (r : result loc) (w' : world) :
  cache rd !! config = None →
  dir_cache w1 = dir_cache w → readers w1 = readers w → configs w1 = configs w →
  store_config self rd config c w1 = (r, w') →
  read_outcome self rd config w r w'.
Proof.
  intros Hc Hd Hr Hcf. unfold store_config. intros [= <- <-].
  rewrite Hcf. apply (read_stored _ _ _ _ c); simpl; congruence.
Qed.

Lemma read_config_outcome (fs : filesystem) (self : loc) (rd : reader)
    (config : string) (parser : parser_arg) (d : pyval) (w w' : world)
    (r : result loc) :
  readers w !! self = Some rd →
  read_config E fs self config parser d w = Some (r, w') →
  read_outcome self rd config w r w'.
Proof.
  intros Hrd. unfold read_config. rewrite Hrd. simpl.
  destruct (cache rd !! config) as [l|] eqn:Hc.
  { intros [= <- <-]. by apply read_hit. }
  destruct (try_parse E fs rd (os_path_join (config_dir rd) config) parser w)
    as [rc w1] eqn:Ht.
  destruct (try_parse_spec _ _ _ _ _ _ _ Ht) as (Hd & Hr & Hcf & _).
  destruct rc as [c|e].
  { intros H%(inj Some). exact (store_config_outcome _ _ _ _ _ _ _ _ Hc Hd Hr Hcf H). }
  assert (∀ e0, (Raise e0, w1) = (r, w') → read_outcome self rd config w r w')
    as Hraise.
  { intros e0 [= <- <-]. by apply read_raised. }
  destruct e; try (intros H%(inj Some); by eapply Hraise).
  destruct (is_raise d); [intros H%(inj Some); by eapply Hraise|].
  destruct (Config_new E d) as [c|e2].
  - intros H%(inj Some). exact (store_config_outcome _ _ _ _ _ _ _ _ Hc Hd Hr Hcf H).
  - intros H%(inj Some). by eapply Hraise.
Qed.

(** The log grows by at most one call in a [read_config]. *)
Lemma read_config_log (fs : filesystem) (self : loc) (config : string)
    (parser : parser_arg) (d : pyval) (w w' : world) (r : result loc) :
  read_config E fs self config parser d w = Some (r, w') →
  ∃ calls, parse_log w' = (parse_log w ++ calls)%list ∧ (length calls ≤ 1)%nat.
Proof.
  unfold read_config. destruct (readers w !! self) as [rd|]; [|done]. simpl.
  destruct (cache rd !! config) as [l|].
  { intros [= <- <-]. exists []. split; [by rewrite app_nil_r | simpl; lia]. }
  destruct (try_parse E fs rd (os_path_join (config_dir rd) config) parser w)
    as [rc w1] eqn:Ht.
  destruct (try_parse_spec _ _ _ _ _ _ _ Ht) as (_ & _ & _ & Hlog).
  assert (∃ calls, parse_log w1 = (parse_log w ++ calls)%list ∧ (length calls ≤ 1)%nat)
    as Hw1.
  { destruct (resolve_parser E fs rd _ parser) as [p|e].
    - destruct Hlog as [_ ->]. eexists [_]. split; [done | simpl; lia].
    - destruct Hlog as [_ ->]. exists []. split; [by rewrite app_nil_r | simpl; lia]. }
  assert (∀ c, parse_log (store_config self rd config c w1).2 = parse_log w1)
    as Hst by done.
  intros H.
  assert (parse_log w' = parse_log w1) as ->; [|done].
  destruct rc as [c|e].
  { injection H as _ <-. apply Hst. }
  destruct e; try (by injection H as _ <-).
  destruct (is_raise d); [by injection H as _ <-|].
  destruct (Config_new E d); injection H as _ <-; [apply Hst | done].
Qed.

(** An uncached name goes through resolution again, and the parser that
    the resolution yields is called. *)
Lemma read_config_uncached_calls (fs : filesystem) (self : loc) (rd : reader)
    (config : string) (parser : parser_arg) (d : pyval) (w : world)
    (p : parser_fn) :
  readers w !! self = Some rd → cache rd !! config = None →
  resolve_parser E fs rd (os_path_join (config_dir rd) config) parser = Ok p →
  ∃ r w', read_config E fs self config parser d w = Some (r, w') ∧
          parse_log w' =
            (parse_log w ++ [(p, os_path_join (config_dir rd) config)])%list.
Proof.
  intros Hrd Hc Hres. unfold read_config. rewrite Hrd. simpl. rewrite Hc.
  unfold try_parse. rewrite Hres.
  destruct (call_parser E p fs _) as [c|e]; [by eexists _, _|].
  destruct e; try by eexists _, _.
  destruct (is_raise d); [by eexists _, _|].
  destruct (Config_new E d); by eexists _, _.
Qed.

End ReaderFacts.

(** ** Missing files *)

(** C4, as stated, fails: a name that is already cached is answered from
    the cache even when the file is missing and the default is ["raise"];
    and a default from which no [Config] can be built, such as [None],
    makes the call raise [TypeError] with nothing cached. *)
Lemma read_config_missing_file_counterexample :
  no_files (os_path_join "/d" "a.json") = None ∧
  read_config sample_extern no_files 0%nat "a.json" ArgNone (VStr "raise") cached_world
    = Some (Ok 0%nat, cached_world) ∧
  read_config sample_extern no_files 0%nat "a.json" ArgNone VNone fresh_world
    = Some (Raise TypeError, log_call JsonParser "/d/a.json" fresh_world).
Proof. by vm_compute. Qed.

(** C4, amended. For a reader whose cache has no entry for the name, and
    a missing or unreadable file: with default ["raise"] the call raises
    [ConfigurationError] carrying the attempted path and caches nothing;
    with a mapping [D] as default it returns a new [Config] object equal
    to [D] and caches that object under the name. *)
Theorem read_config_missing_file (E : Extern) (fs : filesystem) (w : world)
    (self : loc) (rd : reader) (name : string) :
  readers w !! self = Some rd →
  cache rd !! name = None →
  fs (os_path_join (config_dir rd) name) = None →
  (∃ w', read_config E fs self name ArgNone (VStr "raise") w
           = Some (Raise (ConfigurationError "Configuration file not found: %s"
                            (os_path_join (config_dir rd) name)), w') ∧
         readers w' = readers w ∧ configs w' = configs w) ∧
  (∀ D : Config,
     ∃ l w' rd',
       read_config E fs self name ArgNone (VDict D) w = Some (Ok l, w') ∧
       configs w !! l = None ∧ configs w' !! l = Some D ∧
       readers w' !! self = Some rd' ∧ cache rd' !! name = Some l).
Proof.
  intros Hrd Hc Hfs.
  destruct (try_parse_missing E fs rd _ w Hfs) as (w1 & Ht & Hd & Hr & Hcf).
  split.
  - exists w1. unfold read_config. rewrite Hrd. simpl. rewrite Hc, Ht. done.
  - intros D. unfold read_config. rewrite Hrd. simpl. rewrite Hc, Ht. simpl.
    unfold store_config. eexists _, _, _. split; [done|]. simpl.
    rewrite Hcf, Hr. split; [by apply lookup_ge_None_2|].
    split; [by rewrite lookup_app_r, Nat.sub_diag|].
    split.
    + apply list_lookup_insert_eq. by eapply lookup_lt_Some.
    + simpl. apply lookup_insert_eq.
Qed.

Lemma read_config_missing_file_witness :
  ∃ w', read_config sample_extern no_files 0%nat "a.json" ArgNone (VStr "raise")
          fresh_world
        = Some (Raise (ConfigurationError "Configuration file not found: %s"
                         "/d/a.json"), w').
Proof.
  destruct (read_config_missing_file sample_extern no_files fresh_world 0%nat
              (Reader "/d" YamlParser ∅) "a.json" eq_refl eq_refl eq_refl)
    as [(w' & H & _) _].
  exists w'. exact H.
Defined.

(** ** Parser resolution *)





(** ** What sequences of calls preserve *)

Section RunFacts.

Context (E : Extern).

Lemma get_instance_hit (d : string) (p : parser_arg) (w : world) (l : loc) :
  dir_cache w !! abspath E d = Some l → get_instance E d p w = (Ok l, w).
Proof. intros H. unfold get_instance. by rewrite H. Qed.

Lemma get_instance_registered (d : string) (p : parser_arg) (w w1 : world)
    (l : loc) :
  get_instance E d p w = (Ok l, w1) → dir_cache w1 !! abspath E d = Some l.
Proof.
  unfold get_instance. destruct (dir_cache w !! abspath E d) as [l0|] eqn:Hd.
  - by intros [= <- <-].
  - destruct (init (abspath E d) p); intros [= <- <-]. simpl.
    apply lookup_insert_eq.
Qed.

(** [get_instance] only ever adds: a directory, a reader. *)
Lemma get_instance_grows (d : string) (p : parser_arg) (w : world) :
  let w' := (get_instance E d p w).2 in
  (∀ k l, dir_cache w !! k = Some l → dir_cache w' !! k = Some l) ∧
  (∀ i rd, readers w !! i = Some rd → readers w' !! i = Some rd) ∧
  configs w' = configs w ∧ parse_log w' = parse_log w.
Proof.
  unfold get_instance. destruct (dir_cache w !! abspath E d) as [l0|] eqn:Hd;
    [done|].
  destruct (init (abspath E d) p); [|done]. simpl.
  split; [|split; [|done]].
  - intros k l Hk. rewrite lookup_insert_ne; [done|]. congruence.
  - intros i rd Hi. by apply lookup_app_l_Some.
Qed.

Lemma reload_spec (self : loc) (config : option string) (w w' : world)
    (r : result unit) :
  reload self config w = Some (r, w') →
  dir_cache w' = dir_cache w ∧ configs w' = configs w ∧
  parse_log w' = parse_log w ∧
  ∀ i, i ≠ self → readers w' !! i = readers w !! i.
Proof.
  unfold reload. destruct (readers w !! self) as [rd|]; [|done]. simpl.
  destruct (truthy_name config) as [name|].
  - destruct (cache rd !! name); intros [= <- <-]; simpl;
      (split; [done|]; split; [done|]; split; [done|]); intros i Hi;
      [by apply list_lookup_insert_ne | done].
  - intros [= <- <-]. simpl.
    split; [done|]. split; [done|]. split; [done|]. intros i Hi.
    by apply list_lookup_insert_ne.
Qed.

Lemma step_read_inv (fs : filesystem) (self : loc) (config : string)
    (p : parser_arg) (d : pyval) (w w' : world) :
  step E (ReadConfig fs self config p d) w = Some w' →
  ∃ rd r, readers w !! self = Some rd ∧
          read_config E fs self config p d w = Some (r, w').
Proof.
  simpl. destruct (read_config E fs self config p d w) as [[r w0]|] eqn:H;
    [|done].
  intros [= <-]. unfold read_config in H.
  destruct (readers w !! self) as [rd|] eqn:Hrd; [|done].
  by exists rd, r.
Qed.

(** [dir_cache] never loses or changes an entry. *)
Lemma step_dir_cache (c : call) (w w' : world) (k : string) (l : loc) :
  step E c w = Some w' → dir_cache w !! k = Some l → dir_cache w' !! k = Some l.
Proof.
  destruct c as [d p|fs self config p d|self config].
  - simpl. intros [= <-]. apply get_instance_grows.
  - intros Hs. destruct (step_read_inv _ _ _ _ _ _ _ Hs) as (rd & r & Hrd & Hr).
    destruct (read_config_outcome E _ _ _ _ _ _ _ _ _ Hrd Hr); congruence.
  - simpl. destruct (reload self config w) as [[r w0]|] eqn:H; [|done].
    intros [= <-]. destruct (reload_spec _ _ _ _ _ H) as (-> & _). done.
Qed.

Lemma run_dir_cache (cs : list call) (w w' : world) (k : string) (l : loc) :
  run E cs w = Some w' → dir_cache w !! k = Some l → dir_cache w' !! k = Some l.
Proof.
  revert w. induction cs as [|c cs IH]; intros w; simpl.
  - by intros [= <-].
  - destruct (step E c w) as [w0|] eqn:Hs; [|done]. simpl.
    intros Hr Hk. eapply IH; [done|]. by eapply step_dir_cache.
Qed.

(** [Config] objects are never moved or overwritten. *)
Lemma step_configs (c : call) (w w' : world) (l : loc) (cfg : Config) :
  step E c w = Some w' → configs w !! l = Some cfg → configs w' !! l = Some cfg.
Proof.
  destruct c as [d p|fs self config p d|self config].
  - simpl. intros [= <-]. by destruct (get_instance_grows d p w) as (_ & _ & -> & _).
  - intros Hs. destruct (step_read_inv _ _ _ _ _ _ _ Hs) as (rd & r & Hrd & Hr).
    destruct (read_config_outcome E _ _ _ _ _ _ _ _ _ Hrd Hr)
      as [|c w0 _ _ _ Hc|e w0 _ _ _ Hc]; rewrite ?Hc; [done| |done].
    intros Hl. by apply lookup_app_l_Some.
  - simpl. destruct (reload self config w) as [[r w0]|] eqn:H; [|done].
    intros [= <-]. destruct (reload_spec _ _ _ _ _ H) as (_ & -> & _). done.
Qed.

Lemma run_configs (cs : list call) (w w' : world) (l : loc) (cfg : Config) :
  run E cs w = Some w' → configs w !! l = Some cfg → configs w' !! l = Some cfg.
Proof.
  revert w. induction cs as [|c cs IH]; intros w; simpl.
  - by intros [= <-].
  - destruct (step E c w) as [w0|] eqn:Hs; [|done]. simpl.
    intros Hr Hk. eapply IH; [done|]. by eapply step_configs.
Qed.

(** A cache entry stays as it is under every call but a [reload] of
    its own reader. *)
Lemma step_cached (c : call) (w w' : world) (self : loc) (name : string)
    (l : loc) :
  step E c w = Some w' → not_reload_of self c →
  cached w self name l → cached w' self name l.
Proof.
  intros Hs Hnr (rd & Hrd & Hc).
  destruct c as [d p|fs s config p d|s config].
  - simpl in Hs. injection Hs as <-. exists rd. split; [|done].
    by apply get_instance_grows.
  - destruct (step_read_inv _ _ _ _ _ _ _ Hs) as (rd' & r & Hrd' & Hr).
    destruct (read_config_outcome E _ _ _ _ _ _ _ _ _ Hrd' Hr)
      as [|c w0 Hnone _ Hrs _|e w0 _ _ Hrs _].
    + by exists rd.
    + destruct (decide (s = self)) as [->|Hne].
      * assert (rd' = rd) as -> by congruence.
        eexists. split.
        { rewrite Hrs. apply list_lookup_insert_eq. by eapply lookup_lt_Some. }
        simpl. rewrite lookup_insert_ne; [done|]. congruence.
      * exists rd. split; [|done]. rewrite Hrs.
        by rewrite list_lookup_insert_ne.
    + exists rd. by rewrite Hrs.
  - simpl in Hs, Hnr.
    destruct (reload s config w) as [[r w0]|] eqn:H; [|done].
    injection Hs as <-. destruct (reload_spec _ _ _ _ _ H) as (_ & _ & _ & Hrs).
    exists rd. split; [|done]. rewrite Hrs; [done|]. congruence.
Qed.

Lemma run_cached (cs : list call) (w w' : world) (self : loc) (name : string)
    (l : loc) :
  run E cs w = Some w' → Forall (not_reload_of self) cs →
  cached w self name l → cached w' self name l.
Proof.
  revert w. induction cs as [|c cs IH]; intros w; simpl.
  - by intros [= <-].
  - destruct (step E c w) as [w0|] eqn:Hs; [|done]. simpl.
    intros Hr Hall Hc. apply Forall_cons in Hall as [Hc0 Hall].
    eapply IH; [done|done|]. by eapply step_cached.
Qed.

(** A [read_config] that returns leaves the returned object cached. *)
Lemma read_config_ok_cached (fs : filesystem) (self : loc) (name : string)
    (p : parser_arg) (d : pyval) (w w1 : world) (l : loc) :
  read_config E fs self name p d w = Some (Ok l, w1) → cached w1 self name l.
Proof.
  intros Hr.
  assert (∃ rd, readers w !! self = Some rd) as [rd Hrd].
  { unfold read_config in Hr. destruct (readers w !! self); [by eexists|done]. }
  pose proof (read_config_outcome E _ _ _ _ _ _ _ _ _ Hrd Hr) as Ho.
  inversion Ho as [l0 Hc|c w0 Hnone _ Hrs _|]; subst.
  - by exists rd.
  - eexists. split.
    { rewrite Hrs. apply list_lookup_insert_eq. by eapply lookup_lt_Some. }
    simpl. apply lookup_insert_eq.
Qed.

End RunFacts.

(** ** Eviction *)

(** C8, as stated, fails: [reload] with the empty name empties the whole
    cache of the reader, the entry under [a.yaml] included. *)
Lemma reload_counterexample :
  cached two_entries_world 0%nat "a.yaml" 1%nat ∧
  reload 0%nat (Some "") two_entries_world
    = Some (Ok (), World {[ "/d" := 0%nat ]} [Reader "/d" YamlParser ∅] [∅; ∅] []).
Proof.
  split; [|by vm_compute].
  eexists. split; by vm_compute.
Qed.

(** C8, amended. [R.reload(N)] with a non-empty name [N] that has an
    entry in [R]'s cache removes exactly that entry and leaves every
    other reader as it is, so that a following [read_config(N)] goes
    through parser resolution again and calls the parser it yields;
    [R.reload()] with no argument, or with the empty name, empties [R]'s
    cache and leaves every other reader as it is. *)
Theorem reload_evicts (E : Extern) (w : world) (self : loc) (rd : reader) :
  readers w !! self = Some rd →
  (∀ (name : string) (l : loc),
     name ≠ "" → cache rd !! name = Some l →
     let rd' := set_cache rd (delete name (cache rd)) in
     ∃ w',
       reload self (Some name) w = Some (Ok (), w') ∧
       readers w' !! self = Some rd' ∧
       cache rd' !! name = None ∧
       (∀ other, other ≠ name → cache rd' !! other = cache rd !! other) ∧
       (∀ i, i ≠ self → readers w' !! i = readers w !! i) ∧
       ∀ (fs : filesystem) (parser : parser_arg) (d : pyval) (p : parser_fn),
         resolve_parser E fs rd' (os_path_join (config_dir rd) name) parser = Ok p →
         ∃ r w'',
           read_config E fs self name parser d w' = Some (r, w'') ∧
           parse_log w'' =
             (parse_log w' ++ [(p, os_path_join (config_dir rd) name)])%list) ∧
  (∀ config : option string,
     config = None ∨ config = Some "" →
     ∃ w',
       reload self config w = Some (Ok (), w') ∧
       readers w' !! self = Some (set_cache rd ∅) ∧
       (∀ i, i ≠ self → readers w' !! i = readers w !! i)).
Proof.
  intros Hrd.
  assert (self < length (readers w))%nat as Hlt by (by eapply lookup_lt_Some).
  split.
  - intros name l Hne Hc rd'.
    assert (reload self (Some name) w = Some (Ok (), set_reader self rd' w)) as Hre.
    { unfold reload. rewrite Hrd. destruct name; [done|]. simpl. by rewrite Hc. }
    exists (set_reader self rd' w). split; [done|].
    assert (readers (set_reader self rd' w) !! self = Some rd') as Hrd'.
    { simpl. by apply list_lookup_insert_eq. }
    split; [done|]. split; [apply lookup_delete_eq|].
    split; [intros other Ho; simpl; by rewrite lookup_delete_ne|].
    split; [by apply (reload_spec _ _ _ _ _ Hre)|].
    intros fs parser d p Hres.
    apply (read_config_uncached_calls E fs self rd' name parser d _ p Hrd');
      [apply lookup_delete_eq | done].
  - intros config Hcfg.
    assert (truthy_name config = None) as Htn by (by destruct Hcfg as [->| ->]).
    assert (reload self config w = Some (Ok (), set_reader self (set_cache rd ∅) w))
      as Hre.
    { unfold reload. rewrite Hrd. simpl. by rewrite Htn. }
    eexists. split; [done|]. split; [simpl; by apply list_lookup_insert_eq|].
    by apply (reload_spec _ _ _ _ _ Hre).
Qed.

Lemma reload_evicts_witness :
  ∃ w', reload 0%nat (Some "a.yaml") two_entries_world = Some (Ok (), w') ∧
        cached w' 0%nat "" 0%nat ∧ ¬ cached w' 0%nat "a.yaml" 1%nat.
Proof.
  destruct (proj1 (reload_evicts sample_extern two_entries_world 0%nat
                     (Reader "/d" YamlParser {[ "" := 0%nat; "a.yaml" := 1%nat ]})
                     eq_refl) "a.yaml" 1%nat)
    as (w' & Hre & Hrd & Hnone & Hother & _); [done | reflexivity |].
  exists w'. split; [exact Hre|]. split.
  - eexists. split; [exact Hrd|]. rewrite Hother; [reflexivity | done].
  - intros (rd0 & Hrd0 & Hc). congruence.
Defined.

(** C9. When [read_config(name)] raises, the directories, the readers
    with their caches and the [Config] objects are all as before, and
    there is no entry under [name]; a following [read_config(name)]
    therefore resolves the parser again and calls the one it finds. *)
Theorem read_config_raise_keeps_cache (E : Extern) (fs : filesystem)
    (self : loc) (name : string) (parser : parser_arg) (d : pyval)
    (w w' : world) (e : exn) :
  read_config E fs self name parser d w = Some (Raise e, w') →
  dir_cache w' = dir_cache w ∧ readers w' = readers w ∧ configs w' = configs w ∧
  ∃ rd,
    readers w' !! self = Some rd ∧ cache rd !! name = None ∧
    ∀ (fs' : filesystem) (parser' : parser_arg) (d' : pyval) (p : parser_fn),
      resolve_parser E fs' rd (os_path_join (config_dir rd) name) parser' = Ok p →
      ∃ r w'',
        read_config E fs' self name parser' d' w' = Some (r, w'') ∧
        parse_log w'' =
          (parse_log w' ++ [(p, os_path_join (config_dir rd) name)])%list.
Proof.
  intros Hr.
  assert (∃ rd, readers w !! self = Some rd) as [rd Hrd].
  { unfold read_config in Hr. destruct (readers w !! self); [by eexists|done]. }
  pose proof (read_config_outcome E _ _ _ _ _ _ _ _ _ Hrd Hr) as Ho.
  inversion Ho as [| |e0 w0 Hnone Hd Hrs Hcf]; subst.
  split; [done|]. split; [done|]. split; [done|].
  exists rd. rewrite Hrs. split; [done|]. split; [done|].
  intros fs' parser' d' p Hres.
  apply (read_config_uncached_calls E fs' self rd name parser' d' w' p);
    [by rewrite Hrs | done | done].
Qed.

Lemma read_config_raise_keeps_cache_witness :
  read_config sample_extern no_files 0%nat "a.json" ArgNone (VStr "raise") fresh_world
    = Some (Raise (ConfigurationError "Configuration file not found: %s" "/d/a.json"),
            log_call JsonParser "/d/a.json" fresh_world) ∧
  readers (log_call JsonParser "/d/a.json" fresh_world) = readers fresh_world.
Proof.
  assert (read_config sample_extern no_files 0%nat "a.json" ArgNone (VStr "raise")
            fresh_world
          = Some (Raise (ConfigurationError "Configuration file not found: %s"
                           "/d/a.json"),
                  log_call JsonParser "/d/a.json" fresh_world)) as H.
  { vm_compute. reflexivity. }
  split; [exact H|].
  exact (proj1 (proj2 (read_config_raise_keeps_cache sample_extern no_files 0%nat
                         "a.json" ArgNone (VStr "raise") fresh_world _ _ H))).
Defined.

(** C10. [R.reload(N)] with a non-empty name that has no entry in [R]'s
    cache raises [KeyError] for that name and changes nothing. *)
Theorem reload_unknown_name (w : world) (self : loc) (rd : reader)
    (name : string) :
  readers w !! self = Some rd →
  name ≠ "" →
  cache rd !! name = None →
  reload self (Some name) w = Some (Raise (KeyError name), w).
Proof.
  intros Hrd Hne Hc. unfold reload. rewrite Hrd.
  destruct name; [done|]. simpl. by rewrite Hc.
Qed.

Lemma reload_unknown_name_witness :
  reload 0%nat (Some "b.yaml") two_entries_world
    = Some (Raise (KeyError "b.yaml"), two_entries_world).
Proof.
  apply (reload_unknown_name two_entries_world 0%nat
           (Reader "/d" YamlParser {[ "" := 0%nat; "a.yaml" := 1%nat ]}) "b.yaml");
    [reflexivity | discriminate | reflexivity].
Defined.

(** * Further properties of the code *)

(** ** Dotted keys *)

Lemma split_dot_dot_free (s : string) :
  has_dot s = false → split_dot s = [s].
Proof.
  induction s as [|c s IH]; simpl; [done|].
  destruct (Ascii.eqb c dot); simpl; [done|].
  intros Hs. by rewrite (IH Hs).
Qed.

Lemma split_dot_app_dot (s t : string) :
  has_dot s = false → split_dot (s ++ "." ++ t) = s :: split_dot t.
Proof.
  induction s as [|c s IH]; simpl; [done|].
  destruct (Ascii.eqb c dot); simpl; [done|].
  intros Hs. by rewrite (IH Hs).
Qed.

Lemma split_dot_join (ks : list string) :
  ks ≠ [] → Forall (fun k => has_dot k = false) ks → split_dot (join_dot ks) = ks.
Proof.
  induction ks as [|k ks IH]; [done|]. intros _ Hall.
  apply Forall_cons in Hall as [Hk Hall].
  destruct ks as [|k' ks].
  - simpl. by apply split_dot_dot_free.
  - change (join_dot (k :: k' :: ks)) with (k ++ "." ++ join_dot (k' :: ks)).
    rewrite (split_dot_app_dot _ _ Hk). by rewrite IH.
Qed.

Lemma split_dot_head (s : string) :
  ∃ h t, split_dot s = h :: t ∧ has_dot h = false.
Proof.
  induction s as [|c s (h & t & IH & Hh)]; simpl; [by eexists _, _|].
  destruct (Ascii.eqb c dot) eqn:Hc; [by eexists _, _|].
  rewrite IH. eexists _, _. split; [done|]. simpl. by rewrite Hc.
Qed.

Lemma descend_raises (r : pyval) (ks : list string) (e : exn) :
  descend r ks = Raise e → e = TypeError ∨ ∃ k, e = KeyError k.
Proof.
  revert r. induction ks as [|k ks IH]; intros r; simpl; [done|].
  destruct r; simpl; try (intros [= <-]; by left).
  destruct (m !! k) as [v|]; simpl; [apply IH|].
  intros [= <-]. right. by eexists.
Qed.

(** X1. For a key without a dot, [get] is the plain dictionary lookup
    with a default: the stored value if there is one, otherwise the
    default, and never an exception. *)
Theorem get_plain_key (self : Config) (k : string) (d : pyval) :
  has_dot k = false → get self k d = Ok (default d (self !! k)).
Proof.
  intros Hk. unfold get, getitem. rewrite (split_dot_dot_free k Hk). simpl.
  by destruct (self !! k).
Qed.

Lemma get_plain_key_witness :
  get abc_config "zzz" (VInt 3) = Ok (VInt 3).
Proof. apply (get_plain_key abc_config "zzz" (VInt 3)). reflexivity. Defined.

Lemma get_raises (self : Config) (k : string) (d : pyval) (e : exn) :
  get self k d = Raise e → e = TypeError.
Proof.
  unfold get, getitem.
  destruct (descend (VDict self) (split_dot k)) as [v|e0] eqn:Hd; [done|].
  destruct (descend_raises _ _ _ Hd) as [->|[k0 ->]]; [|done].
  by intros [= <-].
Qed.

(** X2. The only exception [get] lets through is [TypeError]: a missing
    segment always becomes the default. *)
Theorem get_raises_only_type_error (self : Config) (k : string) (d : pyval) :
  match get self k d with
  | Ok _ => True
  | Raise e => e = TypeError
  end.
Proof.
  destruct (get self k d) as [v|e] eqn:Hg; [done|]. by eapply get_raises.
Qed.

(** X3. Joining dot-free segments with dots gives a key that walks
    exactly those segments: [get] returns what the nested dictionaries
    hold there, and the default where a segment is missing. *)
Theorem get_joined_segments (self : Config) (ks : list string) (d : pyval) :
  ks ≠ [] → Forall (fun k => has_dot k = false) ks →
  get self (join_dot ks) d =
    match descend (VDict self) ks with
    | Raise (KeyError _) => Ok d
    | r => r
    end.
Proof.
  intros Hne Hall. unfold get, getitem. by rewrite split_dot_join.
Qed.

Lemma get_joined_segments_witness :
  get abc_config "a.b.c" VNone = Ok (VInt 5).
Proof.
  assert (get abc_config (join_dot ["a"; "b"; "c"]) VNone = Ok (VInt 5)) as H.
  { rewrite (get_joined_segments abc_config ["a"; "b"; "c"] VNone);
      [by vm_compute | done | by repeat constructor]. }
  exact H.
Defined.

(** X4. An entry stored at top level under a key that contains a dot is
    invisible to [get]: looking that key up walks its segments and never
    consults the entry. *)
Theorem get_ignores_dotted_entry (self : Config) (key : string) (v d : pyval) :
  has_dot key = true →
  get (<[key := v]> self) key d = get self key d.
Proof.
  intros Hk. unfold get, getitem.
  destruct (split_dot_head key) as (h & t & Hs & Hh). rewrite Hs. simpl.
  assert (key ≠ h) as Hne by (intros ->; congruence).
  by rewrite lookup_insert_ne.
Qed.

Lemma get_ignores_dotted_entry_witness :
  get (<["a.b" := VInt 1]> ∅) "a.b" (VInt 0) = Ok (VInt 0).
Proof.
  rewrite (get_ignores_dotted_entry ∅ "a.b" (VInt 1) (VInt 0)); reflexivity.
Defined.

(** ** What the typed getters can return and raise *)

Lemma py_int_cases (v : pyval) :
  match py_int v with
  | Ok x => ∃ z, x = VInt z
  | Raise e => e = TypeError ∨ e = OverflowError ∨ ∃ m, e = ValueError m
  end.
Proof.
  destruct v as [|b|z|f|s|l|m]; simpl; eauto.
  - destruct f as [?|?| |? ? ?]; simpl; eauto.
  - destruct (int_literal s); eauto.
Qed.

Lemma py_float_cases (fl : string → option spec_float) (v : pyval) :
  match py_float fl v with
  | Ok x => ∃ f, x = VFloat f
  | Raise e => e = TypeError ∨ e = OverflowError ∨ ∃ m, e = ValueError m
  end.
Proof.
  destruct v as [|b|z|f|s|l|m]; simpl; eauto.
  - unfold float_of_Z. destruct (binary_normalize _ _ _ _ _); simpl; eauto.
  - unfold float_of_Z. destruct (binary_normalize _ _ _ _ _); simpl; eauto.
  - destruct (fl s); eauto.
Qed.

(** X5. [get_int] returns an integer or else the default itself, and the
    only exceptions that leave it are [ValueError] and [OverflowError]:
    [KeyError] and [TypeError] never do. [get_float] likewise, with a
    float. *)
Theorem numeric_getters_results (fl : string → option spec_float)
    (self : Config) (k : string) (d : pyval) :
  match get_int self k d with
  | Ok v => (∃ z, v = VInt z) ∨ v = d
  | Raise e => e = OverflowError ∨ ∃ m, e = ValueError m
  end ∧
  match get_float fl self k d with
  | Ok v => (∃ f, v = VFloat f) ∨ v = d
  | Raise e => e = OverflowError ∨ ∃ m, e = ValueError m
  end.
Proof.
  unfold get_int, get_float.
  destruct (get self k d) as [v|e] eqn:Hg; simpl.
  - pose proof (py_int_cases v) as Hi. pose proof (py_float_cases fl v) as Hf.
    split.
    + destruct (py_int v) as [x|e]; [by left|].
      destruct Hi as [->|[->|[m ->]]]; [|by left|right; by eexists].
      destruct (is_raise d); [right; by eexists | by right].
    + destruct (py_float fl v) as [x|e]; [by left|].
      destruct Hf as [->|[->|[m ->]]]; [|by left|right; by eexists].
      destruct (is_raise d); [right; by eexists | by right].
  - rewrite (get_raises _ _ _ _ Hg).
    split; (destruct (is_raise d); [right; by eexists | by right]).
Qed.

(** ** Booleans *)

Lemma lower_ascii_idem (c : ascii) : lower_ascii (lower_ascii c) = lower_ascii c.
Proof. by destruct c as [[] [] [] [] [] [] [] []]. Qed.

Lemma lower_idem (s : string) : lower (lower s) = lower s.
Proof.
  induction s as [|c s IH]; simpl; [done|]. by rewrite lower_ascii_idem, IH.
Qed.

(** X6. [get_boolean] returns a boolean or else the default itself. It
    raises [TypeError] only out of the lookup, and otherwise only the
    [ValueError] that names the key, and that only under the default
    ["raise"]. *)
Theorem get_boolean_results (states : gmap string bool) (self : Config)
    (k : string) (d : pyval) :
  match get_boolean states self k d with
  | Ok v => (∃ b, v = VBool b) ∨ v = d
  | Raise e =>
      (e = TypeError ∧ get self k d = Raise TypeError) ∨
      (is_raise d = true ∧ e = ValueError ("Not a leaf or not a boolean: " ++ k))
  end.
Proof.
  unfold get_boolean. destruct (get self k d) as [v|e] eqn:Hg; simpl.
  - assert (match (match boolean_literal states v with
                   | Some b => Ok (VBool b)
                   | None => if is_raise d
                             then Raise (ValueError ("Not a leaf or not a boolean: " ++ k))
                             else Ok d
                   end) with
            | Ok v0 => (∃ b, v0 = VBool b) ∨ v0 = d
            | Raise e =>
                (e = TypeError ∧ Ok v = Raise TypeError) ∨
                (is_raise d = true ∧
                 e = ValueError ("Not a leaf or not a boolean: " ++ k))
            end) as Hgen.
    { destruct (boolean_literal states v); [left; by eexists|].
      destruct (is_raise d); [by right | by right]. }
    destruct v; try exact Hgen. left. by eexists.
  - left. by rewrite (get_raises _ _ _ _ Hg).
Qed.

(** X7. [get_boolean] does not look at the case of a string value: two
    values that agree once lowered get the same answer. *)
Theorem get_boolean_ignores_case (states : gmap string bool)
    (self1 self2 : Config) (k : string) (s1 s2 : string) (d : pyval) :
  getitem self1 k = Ok (VStr s1) →
  getitem self2 k = Ok (VStr s2) →
  lower s1 = lower s2 →
  get_boolean states self1 k d = get_boolean states self2 k d.
Proof.
  intros H1 H2 Hl. unfold get_boolean, get. rewrite H1, H2. simpl.
  by rewrite Hl.
Qed.

Lemma get_boolean_ignores_case_witness :
  get_boolean default_boolean_states {[ "flag" := VStr "Yes" ]} "flag" (VBool false)
  = get_boolean default_boolean_states {[ "flag" := VStr "yEs" ]} "flag" (VBool false).
Proof.
  apply (get_boolean_ignores_case default_boolean_states
           {[ "flag" := VStr "Yes" ]} {[ "flag" := VStr "yEs" ]} "flag"
           "Yes" "yEs" (VBool false)); reflexivity.
Defined.

(** X8. With the table as the module sets it, a string value is true
    exactly when it is [yes], [true] or [on] in any case, false exactly
    when it is [no], [false] or [off] in any case, and every other
    string goes to the handler. *)
Theorem get_boolean_default_table (self : Config) (k s : string) (d : pyval) :
  getitem self k = Ok (VStr s) →
  get_boolean default_boolean_states self k d =
    if bool_decide (lower s ∈ ["yes"; "true"; "on"]) then Ok (VBool true)
    else if bool_decide (lower s ∈ ["no"; "false"; "off"]) then Ok (VBool false)
    else if is_raise d then Raise (ValueError ("Not a leaf or not a boolean: " ++ k))
    else Ok d.
Proof.
  intros Hg. unfold get_boolean, get. rewrite Hg. simpl.
  unfold default_boolean_states.
  repeat (rewrite lookup_insert; case_decide;
          [match goal with H : _ = lower s |- _ => rewrite <- H end;
           by vm_compute|]).
  rewrite lookup_empty.
  rewrite bool_decide_eq_false_2.
  2:{ rewrite !elem_of_cons, elem_of_nil. intros [?|[?|[?|[]]]]; congruence. }
  rewrite bool_decide_eq_false_2; [done|].
  rewrite !elem_of_cons, elem_of_nil. intros [?|[?|[?|[]]]]; congruence.
Qed.

Lemma get_boolean_default_table_witness :
  get_boolean default_boolean_states {[ "flag" := VStr "maybe" ]} "flag" (VStr "raise")
  = Raise (ValueError "Not a leaf or not a boolean: flag").
Proof.
  rewrite (get_boolean_default_table {[ "flag" := VStr "maybe" ]} "flag" "maybe"
             (VStr "raise")); reflexivity.
Defined.

(** X9. Literals registered with [add_bool_literals] are compared with
    the lowered value, so a literal that is not all lower case is never
    matched: registering such a pair changes no answer of
    [get_boolean]. *)
Theorem add_bool_literals_mixed_case (true_lit false_lit : string)
    (states : gmap string bool) (self : Config) (k : string) (d : pyval) :
  lower true_lit ≠ true_lit → lower false_lit ≠ false_lit →
  get_boolean (add_bool_literals true_lit false_lit states) self k d
  = get_boolean states self k d.
Proof.
  intros Ht Hf. unfold get_boolean.
  destruct (get self k d) as [v|e]; simpl; [|done].
  assert (boolean_literal (add_bool_literals true_lit false_lit states) v
          = boolean_literal states v) as Hb; [|by rewrite Hb].
  destruct v; simpl; try done. unfold add_bool_literals.
  rewrite !lookup_insert_ne; [done| |];
    intros Heq; pose proof (lower_idem s) as Hi; rewrite <- Heq in Hi; done.
Qed.

Lemma add_bool_literals_mixed_case_witness :
  get_boolean (add_bool_literals "Oui" "Non" default_boolean_states)
    {[ "flag" := VStr "Oui" ]} "flag" (VBool false)
  = get_boolean default_boolean_states {[ "flag" := VStr "Oui" ]} "flag" (VBool false).
Proof.
  apply (add_bool_literals_mixed_case "Oui" "Non" default_boolean_states
           {[ "flag" := VStr "Oui" ]} "flag" (VBool false)); discriminate.
Defined.

(** X10. After [add_bool_literals(t, f)], a string value that lowers to
    [f] is false, and one that lowers to [t] is true unless [t] and [f]
    are the same literal, in which case the second assignment has made
    it false. *)
Theorem add_bool_literals_lookup (true_lit false_lit : string)
    (states : gmap string bool) (self : Config) (k s : string) (d : pyval) :
  getitem self k = Ok (VStr s) →
  (lower s = false_lit →
   get_boolean (add_bool_literals true_lit false_lit states) self k d
     = Ok (VBool false)) ∧
  (lower s = true_lit → true_lit ≠ false_lit →
   get_boolean (add_bool_literals true_lit false_lit states) self k d
     = Ok (VBool true)).
Proof.
  intros Hg. unfold get_boolean, get, add_bool_literals. rewrite Hg. simpl.
  split.
  - intros ->. by rewrite lookup_insert_eq.
  - intros -> Hne. rewrite lookup_insert_ne; [|done]. by rewrite lookup_insert_eq.
Qed.

Lemma add_bool_literals_lookup_witness :
  get_boolean (add_bool_literals "oui" "non" default_boolean_states)
    {[ "flag" := VStr "OUI" ]} "flag" (VBool false) = Ok (VBool true).
Proof.
  apply (add_bool_literals_lookup "oui" "non" default_boolean_states
           {[ "flag" := VStr "OUI" ]} "flag" "OUI" (VBool false));
    [reflexivity | reflexivity | discriminate].
Defined.

(** ** JSON leaves *)

(** X11. [get_json] parses the default instead of the value whenever the
    key is missing or the string stored under it makes the decoder raise
    [ValueError]; a string the decoder accepts is returned decoded. *)
Theorem get_json_fallback (E : Extern) (self : Config) (k : string) (d : pyval) :
  (∀ k', getitem self k = Raise (KeyError k') →
         get_json E self k d = json_loads_value E d) ∧
  (∀ s m, getitem self k = Ok (VStr s) → json_decode E s = Raise (ValueError m) →
          get_json E self k d = json_loads_value E d) ∧
  (∀ s x, getitem self k = Ok (VStr s) → json_decode E s = Ok x →
          get_json E self k d = Ok x).
Proof.
  unfold get_json, get. split; [|split].
  - intros k' ->. simpl. destruct (json_loads_value E d) as [x|e]; [done|].
    by destruct e.
  - intros s m -> Hs. simpl. by rewrite Hs.
  - intros s x -> Hs. simpl. by rewrite Hs.
Qed.

Lemma get_json_fallback_witness :
  get_json sample_extern ∅ "list" (VStr "{}") = Ok (VDict ∅).
Proof.
  rewrite (proj1 (get_json_fallback sample_extern ∅ "list" (VStr "{}")) "list");
    reflexivity.
Defined.

(** X12. [get_json] on a value that is not a string, such as a list
    that the YAML loader has already built, raises [TypeError] whatever
    the default: the value is neither returned nor replaced. *)
Theorem get_json_non_string (E : Extern) (self : Config) (k : string)
    (v d : pyval) :
  getitem self k = Ok v → (∀ s, v ≠ VStr s) →
  get_json E self k d = Raise TypeError.
Proof.
  intros Hg Hv. unfold get_json, get. rewrite Hg. simpl.
  destruct v; try done. by destruct (Hv s).
Qed.

Lemma get_json_non_string_witness :
  get_json sample_extern {[ "l" := VList [VStr "x"; VStr "y"] ]} "l" (VStr "{}")
  = Raise TypeError.
Proof.
  apply (get_json_non_string sample_extern {[ "l" := VList [VStr "x"; VStr "y"] ]}
           "l" (VList [VStr "x"; VStr "y"]) (VStr "{}")); [reflexivity | done].
Defined.

(** ** The format parsers *)

(** X13. [yaml_parser] on a readable file returns the document when it
    is a mapping at top level; a document that is [None] (an empty
    file), a boolean or a number makes it raise [TypeError]; and an
    error of the loader passes through unchanged. *)
Theorem yaml_parser_top_level (E : Extern) (fs : filesystem) (file text : string) :
  fs file = Some text →
  (∀ m, yaml_safe_load E text = Ok (VDict m) → yaml_parser E fs file = Ok m) ∧
  (∀ v, yaml_safe_load E text = Ok v →
        match v with VNone | VBool _ | VInt _ | VFloat _ => True | _ => False end →
        yaml_parser E fs file = Raise TypeError) ∧
  (∀ e, yaml_safe_load E text = Raise e → yaml_parser E fs file = Raise e).
Proof.
  intros Hfs. unfold yaml_parser, open_read. rewrite Hfs. simpl.
  split; [|split].
  - by intros m ->.
  - intros v -> Hv. by destruct v.
  - by intros e ->.
Qed.

Lemma yaml_parser_top_level_witness :
  yaml_parser sample_extern
    (fun p => if String.eqb p "/d/empty.yaml" then Some "" else None)
    "/d/empty.yaml" = Raise TypeError.
Proof.
  apply (proj1 (proj2 (yaml_parser_top_level sample_extern
                         (fun p => if String.eqb p "/d/empty.yaml" then Some "" else None)
                         "/d/empty.yaml" "" eq_refl)) VNone); [reflexivity | exact I].
Defined.

(** X14. When the INI reader has put [__name__] into every section,
    [ini_parser] returns a [Config] in which no section has that key any
    more and every other option is where it was: for a section and an
    option named without dots, [get("section.option")] is the raw
    value, and [get("section.__name__")] is the default. *)
Theorem ini_parser_strips_names (E : Extern) (fs : filesystem)
    (file text : string) (sections : gmap string (gmap string pyval)) :
  fs file = Some text →
  ini_read E text = Ok sections →
  (∀ s sec, sections !! s = Some sec → is_Some (sec !! "__name__")) →
  ∃ cfg,
    ini_parser E fs file = Ok cfg ∧
    ∀ s sec, sections !! s = Some sec → has_dot s = false →
      (∀ d, get cfg (s ++ "." ++ "__name__") d = Ok d) ∧
      (∀ o v d, has_dot o = false → o ≠ "__name__" → sec !! o = Some v →
                get cfg (s ++ "." ++ o) d = Ok v).
Proof.
  intros Hfs Hini Hnames.
  exists (VDict <$> (delete "__name__" <$> sections)). split.
  - unfold ini_parser, open_read. rewrite Hfs. simpl. rewrite Hini. simpl.
    unfold del_names. rewrite decide_True; [done|].
    intros s sec Hs. by eapply Hnames.
  - intros s sec Hs Hdot.
    assert (∀ o, has_dot o = false →
              getitem (VDict <$> (delete "__name__" <$> sections)) (s ++ "." ++ o)
              = dict_getitem (VDict (delete "__name__" sec)) o) as Hget.
    { intros o Ho. unfold getitem.
      rewrite (split_dot_app_dot s o Hdot), (split_dot_dot_free o Ho). simpl.
      rewrite !lookup_fmap, Hs. simpl.
      by destruct (delete "__name__" sec !! o). }
    split.
    + intros d. unfold get. rewrite Hget; [|reflexivity]. simpl.
      by rewrite lookup_delete_eq.
    + intros o v d Ho Hne Hv. unfold get. rewrite (Hget o Ho). simpl.
      rewrite lookup_delete_ne; [|done]. by rewrite Hv.
Qed.

Lemma ini_parser_strips_names_witness :
  ∃ cfg,
    ini_parser db_ini_extern db_ini_file "/d/db.ini" = Ok cfg ∧
    get cfg "db.host" VNone = Ok (VStr "localhost") ∧
    get cfg "db.__name__" VNone = Ok VNone.
Proof.
  destruct (ini_parser_strips_names db_ini_extern db_ini_file "/d/db.ini"
              db_ini_text db_ini_sections eq_refl eq_refl) as (cfg & H & Hall).
  - intros s sec Hs. unfold db_ini_sections in Hs.
    apply lookup_singleton_Some in Hs as [_ <-]. exists (VStr "db"). reflexivity.
  - exists cfg. split; [exact H|].
    destruct (Hall "db" {[ "__name__" := VStr "db"; "host" := VStr "localhost" ]}
                eq_refl eq_refl) as [Hname Hopt].
    split.
    + apply (Hopt "host" (VStr "localhost") VNone); [reflexivity | discriminate |].
      reflexivity.
    + exact (Hname VNone).
Defined.

(** ** Reading a file that is there *)

(** X15. For a name that is not cached, when the resolved parser returns
    a [Config], [read_config] returns a new object holding it, caches
    that object under the name and logs the one parser call; the default
    plays no part. *)
Theorem read_config_parsed (E : Extern) (fs : filesystem) (w : world)
    (self : loc) (rd : reader) (name : string) (parser : parser_arg) (d : pyval)
    (p : parser_fn) (c : Config) :
  readers w !! self = Some rd →
  cache rd !! name = None →
  resolve_parser E fs rd (os_path_join (config_dir rd) name) parser = Ok p →
  call_parser E p fs (os_path_join (config_dir rd) name) = Ok c →
  ∃ w',
    read_config E fs self name parser d w = Some (Ok (length (configs w)), w') ∧
    configs w' = (configs w ++ [c])%list ∧
    cached w' self name (length (configs w)) ∧
    parse_log w' = (parse_log w ++ [(p, os_path_join (config_dir rd) name)])%list.
Proof.
  intros Hrd Hc Hres Hcall. unfold read_config. rewrite Hrd. simpl. rewrite Hc.
  unfold try_parse. rewrite Hres, Hcall. unfold store_config.
  eexists. split; [done|]. simpl. split; [done|]. split; [|done].
  eexists. split.
  - simpl. apply list_lookup_insert_eq. by eapply lookup_lt_Some.
  - simpl. apply lookup_insert_eq.
Qed.

Lemma read_config_parsed_witness :
  ∃ w', read_config sample_extern yaml_in_json_file 0%nat "a.json" (ArgName "yaml")
          (VStr "raise") fresh_world = Some (Ok 0%nat, w') ∧
        configs w' = [{[ "k" := VInt 1 ]}].
Proof.
  destruct (read_config_parsed sample_extern yaml_in_json_file fresh_world 0%nat
              (Reader "/d" YamlParser ∅) "a.json" (ArgName "yaml") (VStr "raise")
              YamlParser {[ "k" := VInt 1 ]} eq_refl eq_refl eq_refl eq_refl)
    as (w' & H & Hc & _).
  exists w'. split; [exact H | exact Hc].
Defined.

(** X16. An exception of the parser other than [IOError], such as the
    error of a malformed document or the [TypeError] of an empty YAML
    file, leaves [read_config] unchanged whatever the default is, and
    nothing is cached. *)
Theorem read_config_parser_error (E : Extern) (fs : filesystem) (w : world)
    (self : loc) (rd : reader) (name : string) (parser : parser_arg) (d : pyval)
    (p : parser_fn) (e : exn) :
  readers w !! self = Some rd →
  cache rd !! name = None →
  resolve_parser E fs rd (os_path_join (config_dir rd) name) parser = Ok p →
  call_parser E p fs (os_path_join (config_dir rd) name) = Raise e →
  not_ioerror e →
  ∃ w',
    read_config E fs self name parser d w = Some (Raise e, w') ∧
    readers w' = readers w ∧ configs w' = configs w.
Proof.
  intros Hrd Hc Hres Hcall He. unfold read_config. rewrite Hrd. simpl. rewrite Hc.
  unfold try_parse. rewrite Hres, Hcall.
  destruct e; simpl in He; try done;
    (eexists; split; [reflexivity | split; reflexivity]).
Qed.

Lemma read_config_parser_error_witness :
  ∃ w', read_config sample_extern
          (fun p => if String.eqb p "/d/empty.yaml" then Some "" else None)
          0%nat "empty.yaml" (ArgName "yaml") (VDict ∅) fresh_world
        = Some (Raise TypeError, w').
Proof.
  destruct (read_config_parser_error sample_extern
              (fun p => if String.eqb p "/d/empty.yaml" then Some "" else None)
              fresh_world 0%nat (Reader "/d" YamlParser ∅) "empty.yaml"
              (ArgName "yaml") (VDict ∅) YamlParser TypeError
              eq_refl eq_refl eq_refl eq_refl I) as (w' & H & _).
  exists w'. exact H.
Defined.

(** ** Choosing the parser from the file *)

(** X17. With no explicit parser (or an empty name for one), a path
    whose text after the last dot is a key of the registry gets that
    parser: the file is not opened, and neither its first line nor the
    reader's default parser matter. *)
Theorem resolve_by_extension (E : Extern) (fs : filesystem) (rd : reader)
    (path ext : string) (parser : parser_arg) (p : parser_fn) :
  truthy parser = false →
  rsplit_dot_1 path = Some ext →
  parsers_dict !! ext = Some p →
  resolve_parser E fs rd path parser = Ok p.
Proof.
  intros Ht Hext Hp. unfold resolve_parser, get_parser_from_file.
  rewrite Ht, Hext. simpl. by rewrite Hp.
Qed.

Lemma resolve_by_extension_witness :
  resolve_parser sample_extern no_files (Reader "/d" YamlParser ∅) "/d/app.conf"
    (ArgName "") = Ok IniParser.
Proof.
  apply (resolve_by_extension sample_extern no_files (Reader "/d" YamlParser ∅)
           "/d/app.conf" "conf" (ArgName "") IniParser); reflexivity.
Defined.

(** X18. With no explicit parser and no registered extension, a readable
    file whose first line is not a comment, or is a comment in which no
    registry key occurs, gets the reader's default parser. *)
Theorem resolve_default (E : Extern) (fs : filesystem) (rd : reader)
    (path text : string) (parser : parser_arg) :
  truthy parser = false →
  rsplit_dot_1 path ≫= (parsers_dict !!.) = None →
  fs path = Some text →
  startswith "#"%char (lower (readline text)) = false ∨
    Forall (fun k => contains k (lower (readline text)) = false) (iteritems_order E) →
  resolve_parser E fs rd path parser = Ok (default_parser rd).
Proof.
  intros Ht Hext Hfs Hline. unfold resolve_parser, get_parser_from_file, open_read.
  rewrite Ht, Hext, Hfs. simpl.
  destruct Hline as [->|Hall]; [done|].
  destruct (startswith _ _); [|done]. f_equal.
  induction Hall as [|k ks Hk _ IH]; simpl; [done|]. by rewrite Hk.
Qed.

Lemma resolve_default_witness :
  resolve_parser sample_extern
    (fun p => if String.eqb p "/d/settings" then Some "k: 1" else None)
    (Reader "/d" IniParser ∅) "/d/settings" ArgNone = Ok IniParser.
Proof.
  apply (resolve_default sample_extern
           (fun p => if String.eqb p "/d/settings" then Some "k: 1" else None)
           (Reader "/d" IniParser ∅) "/d/settings" "k: 1" ArgNone);
    [reflexivity | reflexivity | reflexivity | left; reflexivity].
Defined.

(** X19. With no explicit parser and no registered extension, a readable
    file whose first line is a comment gets the parser of the first
    registry key, in iteration order, that occurs anywhere in that line
    once lowered, be it inside another word. *)
Theorem resolve_by_first_line (E : Extern) (fs : filesystem) (rd : reader)
    (path text : string) (parser : parser_arg) (before after : list string)
    (k : string) (p : parser_fn) :
  truthy parser = false →
  rsplit_dot_1 path ≫= (parsers_dict !!.) = None →
  fs path = Some text →
  startswith "#"%char (lower (readline text)) = true →
  iteritems_order E = (before ++ k :: after)%list →
  Forall (fun k' => contains k' (lower (readline text)) = false) before →
  contains k (lower (readline text)) = true →
  parsers_dict !! k = Some p →
  resolve_parser E fs rd path parser = Ok p.
Proof.
  intros Ht Hext Hfs Hc Hord Hbefore Hk Hp.
  unfold resolve_parser, get_parser_from_file, open_read.
  rewrite Ht, Hext, Hfs. simpl. rewrite Hc, Hord. clear Hord. f_equal.
  induction Hbefore as [|k' ks Hk' _ IH]; cbn [app sniff].
  - rewrite Hk, Hp. reflexivity.
  - by rewrite Hk'.
Qed.

Lemma resolve_by_first_line_witness :
  resolve_parser sample_extern
    (fun p => if String.eqb p "/d/settings" then Some "# App Configuration" else None)
    (Reader "/d" YamlParser ∅) "/d/settings" ArgNone = Ok IniParser.
Proof.
  apply (resolve_by_first_line sample_extern
           (fun p => if String.eqb p "/d/settings" then Some "# App Configuration"
                     else None)
           (Reader "/d" YamlParser ∅) "/d/settings" "# App Configuration" ArgNone
           ["yaml"; "ini"] ["json"] "conf" IniParser);
    try reflexivity.
  repeat constructor.
Defined.

(** ** Creating readers *)

(** X20. When [get_instance] raises, it is a [KeyError] out of the
    parser lookup for a directory that has no reader yet, and the state
    is exactly as before: nothing is registered. *)
Theorem get_instance_raise (E : Extern) (D : string) (p : parser_arg)
    (w w' : world) (e : exn) :
  get_instance E D p w = (Raise e, w') →
  w' = w ∧ dir_cache w !! abspath E D = None ∧ ∃ k, e = KeyError k.
Proof.
  unfold get_instance. destruct (dir_cache w !! abspath E D); [done|].
  unfold init. destruct p as [|name|q|n]; simpl; try done.
  - destruct (parsers_dict !! name); simpl; [done|].
    intros [= <- <-]. split; [done|]. split; [done|]. by eexists.
  - destruct (parsers_set q); simpl; [done|].
    intros [= <- <-]. split; [done|]. split; [done|]. by eexists.
  - intros [= <- <-]. split; [done|]. split; [done|]. by eexists.
Qed.

Lemma get_instance_raise_witness :
  get_instance sample_extern "/d" (ArgName "yml") empty_world
    = (Raise (KeyError "yml"), empty_world) ∧
  dir_cache empty_world !! abspath sample_extern "/d" = None.
Proof.
  split; [reflexivity|].
  apply (get_instance_raise sample_extern "/d" (ArgName "yml") empty_world
           empty_world (KeyError "yml")).
  reflexivity.
Defined.

(** X21. For a directory that has no reader yet, [get_instance] with a
    [parser] argument that names a parser, or with none, creates a new
    reader rooted at the absolute path, with an empty cache and with
    what [get_parser] gives as default. With no argument that default is
    not the plain YAML parser but the class attribute read through the
    new instance, [yaml_parser] bound to the reader, and calling it with
    a path raises [TypeError]; with a registry key or one of the three
    functions it is that function. *)
Theorem get_instance_new (E : Extern) (D : string) (p : parser_arg)
    (q : parser_fn) (w : world) :
  dir_cache w !! abspath E D = None →
  get_parser class_default_parser p = Ok q →
  (p = ArgNone →
   q = BoundYamlParser ∧ ∀ fs path, call_parser E q fs path = Raise TypeError) ∧
  (p ≠ ArgNone → denotes p q ∧ parsers_set q = true) ∧
  ∃ w',
    get_instance E D p w = (Ok (length (readers w)), w') ∧
    readers w' !! length (readers w) = Some (Reader (abspath E D) q ∅) ∧
    dir_cache w' !! abspath E D = Some (length (readers w)).
Proof.
  intros Hd Hq. split; [|split].
  - intros ->. simpl in Hq. injection Hq as <-. done.
  - intros Hp. destruct p as [|name|q0|n]; simpl in Hq; try done.
    + destruct (parsers_dict !! name) as [p0|] eqn:Hn; [|done].
      injection Hq as <-. split; [done|]. by eapply parsers_dict_registered.
    + destruct (parsers_set q0) eqn:Hs; [|done]. injection Hq as <-. done.
  - unfold get_instance, init. rewrite Hd, Hq. simpl.
    eexists. split; [done|]. simpl. split.
    + by rewrite lookup_app_r, Nat.sub_diag.
    + apply lookup_insert_eq.
Qed.

Lemma get_instance_new_witness :
  ∃ w', get_instance sample_extern "etc" ArgNone empty_world = (Ok 0%nat, w') ∧
        readers w' !! 0%nat = Some (Reader "/cwd/etc" BoundYamlParser ∅).
Proof.
  destruct (proj2 (proj2 (get_instance_new sample_extern "etc" ArgNone
                            BoundYamlParser empty_world eq_refl eq_refl)))
    as (w' & H & Hr & _).
  exists w'. split; [exact H | exact Hr].
Defined.

(** ** Invariants over sequences of calls *)

Section Invariants.

Context (E : Extern).

Lemma get_instance_cached_back (d : string) (p : parser_arg) (w : world)
    (s : loc) (n : string) (l : loc) :
  cached (get_instance E d p w).2 s n l → cached w s n l.
Proof.
  unfold get_instance. destruct (dir_cache w !! abspath E d); [done|].
  destruct (init (abspath E d) p) as [rd|] eqn:Hi; [|done]. simpl.
  intros (rd0 & Hrd0 & Hc). simpl in Hrd0.
  apply lookup_app_Some in Hrd0 as [Hold|[_ Hnew]].
  - by exists rd0.
  - apply list_lookup_singleton_Some in Hnew as [_ <-].
    unfold init in Hi. destruct (get_parser class_default_parser p); [|done].
    simpl in Hi. injection Hi as <-. simpl in Hc. by rewrite lookup_empty in Hc.
Qed.

Lemma read_config_cached_back (fs : filesystem) (self : loc) (rd : reader)
    (config : string) (p : parser_arg) (d : pyval) (w w' : world)
    (r : result loc) (s : loc) (n : string) (l : loc) :
  readers w !! self = Some rd →
  read_config E fs self config p d w = Some (r, w') →
  cached w' s n l →
  cached w s n l ∨
  (s = self ∧ n = config ∧ l = length (configs w) ∧ cache rd !! config = None).
Proof.
  intros Hrd Hr (rd0 & Hrd0 & Hc).
  destruct (read_config_outcome E _ _ _ _ _ _ _ _ _ Hrd Hr)
    as [|c w0 Hnone _ Hrs _|e w0 _ _ Hrs _].
  - left. by exists rd0.
  - rewrite Hrs in Hrd0. destruct (decide (s = self)) as [->|Hne].
    + rewrite list_lookup_insert_eq in Hrd0; [|by eapply lookup_lt_Some].
      injection Hrd0 as <-. simpl in Hc.
      destruct (decide (n = config)) as [->|Hn].
      * rewrite lookup_insert_eq in Hc. injection Hc as <-. by right.
      * rewrite lookup_insert_ne in Hc; [|done]. left. by exists rd.
    + rewrite list_lookup_insert_ne in Hrd0; [|done]. left. by exists rd0.
  - rewrite Hrs in Hrd0. left. by exists rd0.
Qed.

Lemma reload_cached_back (self : loc) (config : option string) (w w' : world)
    (r : result unit) (s : loc) (n : string) (l : loc) :
  reload self config w = Some (r, w') → cached w' s n l → cached w s n l.
Proof.
  unfold reload. destruct (readers w !! self) as [rd|] eqn:Hrd; [|done]. simpl.
  assert (∀ c' : gmap string loc,
            (∀ l0, c' !! n = Some l0 → cache rd !! n = Some l0) →
            cached (set_reader self (set_cache rd c') w) s n l → cached w s n l)
    as Hsub.
  { intros c' Hc' (rd0 & Hrd0 & Hc). simpl in Hrd0.
    destruct (decide (s = self)) as [->|Hne].
    - rewrite list_lookup_insert_eq in Hrd0; [|by eapply lookup_lt_Some].
      injection Hrd0 as <-. exists rd. split; [done|]. by apply Hc'.
    - rewrite list_lookup_insert_ne in Hrd0; [|done]. by exists rd0. }
  destruct (truthy_name config) as [name|].
  - destruct (cache rd !! name) eqn:Hn; intros [= <- <-]; [|done].
    apply Hsub. intros l0 Hl0. by apply lookup_delete_Some in Hl0 as [_ ?].
  - intros [= <- <-]. apply Hsub. intros l0 Hl0. by rewrite lookup_empty in Hl0.
Qed.

Lemma step_registry_ok (c : call) (w w' : world) :
  step E c w = Some w' → registry_ok w → registry_ok w'.
Proof.
  intros Hs Hok path l Hp.
  destruct c as [d p|fs self config p d|self config].
  - simpl in Hs. injection Hs as <-. revert Hp. unfold get_instance.
    destruct (dir_cache w !! abspath E d) eqn:Hd; [apply Hok|].
    unfold init. destruct (get_parser class_default_parser p); simpl; [|apply Hok].
    intros Hp. apply lookup_insert_Some in Hp as [[<- <-]|[_ Hp]].
    + eexists. split; [by rewrite lookup_app_r, Nat.sub_diag | done].
    + destruct (Hok _ _ Hp) as (rd & Hrd & Hdir). exists rd. split; [|done].
      by apply lookup_app_l_Some.
  - destruct (step_read_inv E _ _ _ _ _ _ _ Hs) as (rd & r & Hrd & Hr).
    destruct (read_config_outcome E _ _ _ _ _ _ _ _ _ Hrd Hr)
      as [|c w0 _ Hdc Hrs _|e w0 _ Hdc Hrs _].
    + by apply Hok.
    + rewrite Hdc in Hp. destruct (Hok _ _ Hp) as (rd0 & Hrd0 & Hdir).
      rewrite Hrs. destruct (decide (l = self)) as [->|Hne].
      * eexists. split; [apply list_lookup_insert_eq; by eapply lookup_lt_Some|].
        simpl. congruence.
      * exists rd0. by rewrite list_lookup_insert_ne.
    + rewrite Hdc in Hp. rewrite Hrs. by apply Hok.
  - simpl in Hs. destruct (reload self config w) as [[r w0]|] eqn:Hre; [|done].
    injection Hs as <-. destruct (reload_spec _ _ _ _ _ Hre) as (Hdc & _ & _ & Hoth).
    rewrite Hdc in Hp. destruct (Hok _ _ Hp) as (rd0 & Hrd0 & Hdir).
    destruct (decide (l = self)) as [->|Hne]; [|exists rd0; by rewrite Hoth].
    revert Hre. unfold reload. rewrite Hrd0. simpl.
    destruct (truthy_name config) as [name|];
      [destruct (cache rd0 !! name)|]; intros [= _ <-]; simpl;
      try (by exists rd0);
      (eexists; split; [apply list_lookup_insert_eq; by eapply lookup_lt_Some|done]).
Qed.

Lemma step_configs_length (c : call) (w w' : world) :
  step E c w = Some w' → (length (configs w) ≤ length (configs w'))%nat.
Proof.
  destruct c as [d p|fs self config p d|self config].
  - simpl. intros [= <-]. by destruct (get_instance_grows E d p w) as (_ & _ & -> & _).
  - intros Hs. destruct (step_read_inv E _ _ _ _ _ _ _ Hs) as (rd & r & Hrd & Hr).
    destruct (read_config_outcome E _ _ _ _ _ _ _ _ _ Hrd Hr)
      as [|c w0 _ _ _ Hc|e w0 _ _ _ Hc]; rewrite ?Hc; [done| |done].
    rewrite length_app. lia.
  - simpl. destruct (reload self config w) as [[r w0]|] eqn:H; [|done].
    intros [= <-]. by destruct (reload_spec _ _ _ _ _ H) as (_ & -> & _).
Qed.

Lemma step_caches_ok (c : call) (w w' : world) :
  step E c w = Some w' → caches_ok w → caches_ok w'.
Proof.
  intros Hs [Hlt Hinj].
  pose proof (step_configs_length c w w' Hs) as Hlen.
  assert (∀ s n l, cached w' s n l →
            cached w s n l ∨
            (l = length (configs w) ∧ (length (configs w) < length (configs w'))%nat ∧
             ∀ s' n' l', cached w' s' n' l' → l' = length (configs w) →
                         s' = s ∧ n' = n)) as Hback.
  { intros s n l Hc.
    destruct c as [d p|fs self config p d|self config].
    - simpl in Hs. injection Hs as <-. left. by eapply get_instance_cached_back.
    - destruct (step_read_inv E _ _ _ _ _ _ _ Hs) as (rd & r & Hrd & Hr).
      destruct (read_config_cached_back _ _ _ _ _ _ _ _ _ _ _ _ Hrd Hr Hc)
        as [Hold|(-> & -> & -> & Hnone)]; [by left|].
      right. split; [done|].
      destruct (read_config_outcome E _ _ _ _ _ _ _ _ _ Hrd Hr)
        as [l0 Hhit|c w0 _ _ _ Hcf|e w0 _ _ Hrs _].
      + congruence.
      + split; [rewrite Hcf, length_app; simpl; lia|].
        intros s' n' l' Hc' ->.
        destruct (read_config_cached_back _ _ _ _ _ _ _ _ _ _ _ _ Hrd Hr Hc')
          as [Hold|(-> & -> & _)]; [|done].
        apply Hlt in Hold. lia.
      + destruct Hc as (rd0 & Hrd0 & Hc0). rewrite Hrs in Hrd0.
        assert (cached w self config (length (configs w))) as Hold
          by (by exists rd0).
        apply Hlt in Hold. lia.
    - simpl in Hs. destruct (reload self config w) as [[r w0]|] eqn:Hre; [|done].
      injection Hs as <-. left. by eapply reload_cached_back. }
  split.
  - intros s n l Hc. destruct (Hback _ _ _ Hc) as [Hold|(-> & Hnew & _)]; [|done].
    apply Hlt in Hold. lia.
  - intros s n s' n' l Hc Hc'.
    destruct (Hback _ _ _ Hc) as [Hold|(-> & _ & Huniq)].
    + destruct (Hback _ _ _ Hc') as [Hold'|(-> & _ & _)]; [by eapply Hinj|].
      apply Hlt in Hold. lia.
    + destruct (Huniq _ _ _ Hc' eq_refl) as [-> ->]. done.
Qed.

Lemma run_invariants (cs : list call) (w w' : world) :
  run E cs w = Some w' → registry_ok w ∧ caches_ok w →
  registry_ok w' ∧ caches_ok w'.
Proof.
  revert w. induction cs as [|c cs IH]; intros w; simpl.
  - by intros [= <-].
  - destruct (step E c w) as [w0|] eqn:Hs; [|done]. simpl.
    intros Hr [Hreg Hca]. apply (IH w0 Hr). split.
    + by eapply step_registry_ok.
    + by eapply step_caches_ok.
Qed.

Lemma empty_world_invariants : registry_ok empty_world ∧ caches_ok empty_world.
Proof.
  split; [intros path l Hp; simpl in Hp; by rewrite lookup_empty in Hp|].
  split.
  - intros s n l (rd & Hrd & _). simpl in Hrd. by rewrite lookup_nil in Hrd.
  - intros s n s' n' l (rd & Hrd & _). simpl in Hrd. by rewrite lookup_nil in Hrd.
Qed.

End Invariants.

(** ** One reader per directory *)

Lemma run_registry_ok (E : Extern) (cs : list call) (w w' : world) :
  run E cs w = Some w' → registry_ok w → registry_ok w'.
Proof.
  revert w. induction cs as [|c cs IH]; intros w; simpl.
  - by intros [= <-].
  - destruct (step E c w) as [w0|] eqn:Hs; [|done]. simpl.
    intros Hr Hreg. apply (IH w0 Hr). by eapply step_registry_ok.
Qed.

(** C6. In a state where every registered directory has its reader,
    [get_instance(D)] returns a reader rooted at the absolute path of
    [D]; every later call for a directory with the same absolute path,
    after any calls in between and with any [parser] argument (even one
    that names no parser), returns that same reader, still rooted
    there, and changes nothing. The same holds after a first call with
    a [parser] argument, whenever that call returns. *)
Theorem get_instance_singleton (E : Extern) (w : world) (D : string) :
  registry_ok w →
  (∃ l w1 rd,
     get_instance E D ArgNone w = (Ok l, w1) ∧
     readers w1 !! l = Some rd ∧ config_dir rd = abspath E D ∧
     ∀ (cs : list call) (w2 : world) (D' : string) (p2 : parser_arg),
       run E cs w1 = Some w2 →
       abspath E D' = abspath E D →
       get_instance E D' p2 w2 = (Ok l, w2) ∧
       ∃ rd2, readers w2 !! l = Some rd2 ∧ config_dir rd2 = abspath E D) ∧
  ∀ (p1 : parser_arg) (l : loc) (w1 : world) (cs : list call) (w2 : world)
    (D' : string) (p2 : parser_arg),
    get_instance E D p1 w = (Ok l, w1) →
    run E cs w1 = Some w2 →
    abspath E D' = abspath E D →
    (∃ rd, readers w1 !! l = Some rd ∧ config_dir rd = abspath E D) ∧
    get_instance E D' p2 w2 = (Ok l, w2) ∧
    ∃ rd2, readers w2 !! l = Some rd2 ∧ config_dir rd2 = abspath E D.
Proof.
  intros Hreg.
  assert (∀ p1 l w1, get_instance E D p1 w = (Ok l, w1) →
            registry_ok w1 ∧ dir_cache w1 !! abspath E D = Some l) as Hfirst.
  { intros p1 l w1 H1. split; [|by eapply get_instance_registered].
    apply (step_registry_ok E (GetInstance D p1) w); [|done].
    simpl. by rewrite H1. }
  assert (∀ (l : loc) (w1 : world) (cs : list call) (w2 : world)
            (D' : string) (p2 : parser_arg),
            registry_ok w1 → dir_cache w1 !! abspath E D = Some l →
            run E cs w1 = Some w2 → abspath E D' = abspath E D →
            get_instance E D' p2 w2 = (Ok l, w2) ∧
            ∃ rd2, readers w2 !! l = Some rd2 ∧ config_dir rd2 = abspath E D)
    as Hlater.
  { intros l w1 cs w2 D' p2 Hreg1 Hd1 Hrun HD.
    pose proof (run_dir_cache E cs w1 w2 _ _ Hrun Hd1) as Hd2.
    split; [apply get_instance_hit; by rewrite HD|].
    by apply (run_registry_ok E cs w1 w2 Hrun Hreg1). }
  split.
  - assert (∃ l w1, get_instance E D ArgNone w = (Ok l, w1)) as (l & w1 & H1).
    { unfold get_instance. destruct (dir_cache w !! abspath E D); by eexists _, _. }
    destruct (Hfirst _ _ _ H1) as [Hreg1 Hd1].
    destruct (Hreg1 _ _ Hd1) as (rd & Hrd & Hdir).
    exists l, w1, rd. split; [done|]. split; [done|]. split; [done|].
    intros cs w2 D' p2 Hrun HD. by eapply Hlater.
  - intros p1 l w1 cs w2 D' p2 H1 Hrun HD.
    destruct (Hfirst _ _ _ H1) as [Hreg1 Hd1].
    split; [by apply Hreg1|]. by eapply Hlater.
Qed.

Lemma get_instance_singleton_witness :
  ∃ l w1 rd,
    get_instance sample_extern "/d" ArgNone empty_world = (Ok l, w1) ∧
    readers w1 !! l = Some rd ∧ config_dir rd = "/d" ∧
    get_instance sample_extern "/d" (ArgName "no such parser") w1 = (Ok l, w1).
Proof.
  destruct (proj1 (get_instance_singleton sample_extern empty_world "/d"
                     (proj1 empty_world_invariants)))
    as (l & w1 & rd & H1 & Hrd & Hdir & Hlater).
  exists l, w1, rd. split; [exact H1|]. split; [exact Hrd|]. split; [exact Hdir|].
  exact (proj1 (Hlater [] w1 "/d" (ArgName "no such parser") eq_refl eq_refl)).
Defined.

(** ** The file cache *)

(** C7, as stated, fails: a read that raises caches nothing, so two
    reads of a malformed file, with no [reload] in between, both raise
    and the parser is called twice. *)
Lemma read_config_twice_counterexample :
  let fs := fun p => if String.eqb p "/d/bad.yaml" then Some "k: [" else None in
  let w1 := log_call YamlParser "/d/bad.yaml" fresh_world in
  let w2 := log_call YamlParser "/d/bad.yaml" w1 in
  read_config sample_extern fs 0%nat "bad.yaml" ArgNone (VDict ∅) fresh_world
    = Some (Raise (LibraryError "yaml: could not parse"), w1) ∧
  read_config sample_extern fs 0%nat "bad.yaml" ArgNone (VDict ∅) w1
    = Some (Raise (LibraryError "yaml: could not parse"), w2) ∧
  parse_log w2 = [(YamlParser, "/d/bad.yaml"); (YamlParser, "/d/bad.yaml")].
Proof. by vm_compute. Qed.

(** C7, amended. When [R.read_config(N)] has returned an object, that
    object is cached under [N], and a later [R.read_config(N)], after
    any calls that are not a [reload] of [R] and whatever its arguments
    and the files are by then, returns the same object, still cached
    under [N]; the later call leaves the state, and so the log of
    parser calls, as it is, and the first call made at most one parser
    call. In a state where every cache entry names a live object, the
    object returned is a [Config] in the store and holds the same
    mapping at the later call. *)
Theorem read_config_twice (E : Extern) (fs1 fs2 : filesystem) (w : world)
    (self : loc) (name : string) (p1 p2 : parser_arg) (d1 d2 : pyval)
    (l : loc) (w1 : world) (cs : list call) (w2 : world) :
  read_config E fs1 self name p1 d1 w = Some (Ok l, w1) →
  run E cs w1 = Some w2 →
  Forall (not_reload_of self) cs →
  read_config E fs2 self name p2 d2 w2 = Some (Ok l, w2) ∧
  cached w1 self name l ∧ cached w2 self name l ∧
  (∀ c, configs w1 !! l = Some c → configs w2 !! l = Some c) ∧
  (∃ calls, parse_log w1 = (parse_log w ++ calls)%list ∧ (length calls ≤ 1)%nat) ∧
  (caches_ok w → ∃ c, configs w1 !! l = Some c ∧ configs w2 !! l = Some c).
Proof.
  intros H1 Hrun Hcs.
  pose proof (read_config_ok_cached E _ _ _ _ _ _ _ _ H1) as Hc1.
  pose proof (run_cached E cs w1 w2 self name l Hrun Hcs Hc1) as Hc2.
  split; [|split; [done|split; [done|split; [|split]]]].
  - destruct Hc2 as (rd & Hrd & Hc). by eapply read_config_cached.
  - intros c. by apply (run_configs E cs).
  - by eapply read_config_log.
  - intros [Hlt _].
    assert (∃ c, configs w1 !! l = Some c) as [c Hc].
    { assert (∃ rd, readers w !! self = Some rd) as [rd Hrd].
      { unfold read_config in H1. destruct (readers w !! self); [by eexists|done]. }
      pose proof (read_config_outcome E _ _ _ _ _ _ _ _ _ Hrd H1) as Ho.
      inversion Ho as [l0 Hhit|c w0 _ _ _ Hcf|]; subst.
      - apply lookup_lt_is_Some_2. apply (Hlt self name). by exists rd.
      - exists c. rewrite Hcf. by rewrite lookup_app_r, Nat.sub_diag. }
    exists c. split; [done|]. by apply (run_configs E cs w1 w2).
Qed.

Lemma read_config_twice_witness :
  ∃ w2, read_config sample_extern no_files 0%nat "a.json" ArgNone (VStr "raise") w2
          = Some (Ok 0%nat, w2) ∧
        cached w2 0%nat "a.json" 0%nat ∧
        parse_log w2 = [(YamlParser, "/d/a.json")].
Proof.
  pose (w1 := match read_config sample_extern yaml_in_json_file 0%nat "a.json"
                      (ArgName "yaml") (VDict ∅) fresh_world with
              | Some (_, w) => w
              | None => fresh_world
              end).
  pose (w2 := match run sample_extern [GetInstance "/e" ArgNone] w1 with
              | Some w => w
              | None => w1
              end).
  exists w2.
  destruct (read_config_twice sample_extern yaml_in_json_file no_files
              fresh_world 0%nat "a.json" (ArgName "yaml") ArgNone (VDict ∅)
              (VStr "raise") 0%nat w1 [GetInstance "/e" ArgNone] w2)
    as (Hsecond & _ & Hcached & _).
  - vm_compute. reflexivity.
  - vm_compute. reflexivity.
  - repeat constructor.
  - split; [exact Hsecond|]. split; [exact Hcached | reflexivity].
Defined.

(** X22. In every state reached from the empty one by any sequence of
    calls, each registered directory has a live reader rooted at that
    very directory, and two different directories never share a
    reader. *)
Theorem registry_reachable (E : Extern) (cs : list call) (w : world) :
  run E cs empty_world = Some w →
  registry_ok w ∧
  ∀ p1 p2 l, dir_cache w !! p1 = Some l → dir_cache w !! p2 = Some l → p1 = p2.
Proof.
  intros Hrun.
  destruct (run_invariants E cs _ _ Hrun (empty_world_invariants)) as [Hreg _].
  split; [done|]. intros p1 p2 l H1 H2.
  destruct (Hreg _ _ H1) as (rd1 & Hrd1 & <-).
  destruct (Hreg _ _ H2) as (rd2 & Hrd2 & <-). congruence.
Qed.

Lemma registry_reachable_witness :
  ∃ w, run sample_extern [GetInstance "/d" ArgNone; GetInstance "etc" (ArgName "ini")]
         empty_world = Some w ∧
       registry_ok w.
Proof.
  eexists. split.
  - vm_compute. reflexivity.
  - eapply proj1.
    apply (registry_reachable sample_extern
             [GetInstance "/d" ArgNone; GetInstance "etc" (ArgName "ini")]).
    vm_compute. reflexivity.
Defined.

(** X23. In every state reached from the empty one by any sequence of
    calls, each cache entry refers to a [Config] object that exists, and
    no object is cached under two names or by two readers. *)
Theorem caches_reachable (E : Extern) (cs : list call) (w : world) :
  run E cs empty_world = Some w → caches_ok w.
Proof.
  intros Hrun.
  by destruct (run_invariants E cs _ _ Hrun (empty_world_invariants)) as [_ Hca].
Qed.

Lemma caches_reachable_witness :
  ∃ w, run sample_extern
         [GetInstance "/d" ArgNone;
          ReadConfig yaml_in_json_file 0%nat "a.json" (ArgName "yaml") (VDict ∅);
          ReadConfig no_files 0%nat "b.yaml" ArgNone (VDict ∅)]
         empty_world = Some w ∧
       caches_ok w.
Proof.
  eexists. split.
  - vm_compute. reflexivity.
  - apply (caches_reachable sample_extern
             [GetInstance "/d" ArgNone;
              ReadConfig yaml_in_json_file 0%nat "a.json" (ArgName "yaml") (VDict ∅);
              ReadConfig no_files 0%nat "b.yaml" ArgNone (VDict ∅)]).
    vm_compute. reflexivity.
Defined.

(** X24. After [reload(N)] has evicted an entry, a [read_config(N)]
    that returns does not hand back the old object: it returns a newly
    created one, and the old object is left in the store as it was. *)
Theorem reload_then_read_is_fresh (E : Extern) (fs : filesystem) (w w1 w2 : world)
    (self : loc) (rd : reader) (name : string) (l l' : loc)
    (parser : parser_arg) (d : pyval) :
  caches_ok w →
  readers w !! self = Some rd →
  cache rd !! name = Some l →
  reload self (Some name) w = Some (Ok (), w1) →
  read_config E fs self name parser d w1 = Some (Ok l', w2) →
  l' = length (configs w) ∧ l' ≠ l ∧
  configs w2 !! l = configs w !! l ∧ is_Some (configs w2 !! l').
Proof.
  intros [Hlt _] Hrd Hc Hre Hread.
  assert (l < length (configs w))%nat as Hl by (apply (Hlt self name); by exists rd).
  assert (∃ rd1, readers w1 !! self = Some rd1 ∧ cache rd1 !! name = None ∧
                 configs w1 = configs w) as (rd1 & Hrd1 & Hnone & Hcf1).
  { assert (self < length (readers w))%nat by (by eapply lookup_lt_Some).
    revert Hre. unfold reload. rewrite Hrd. destruct name as [|a s]; simpl.
    - intros [= <-]. eexists. split; [by apply list_lookup_insert_eq|].
      split; [apply lookup_empty | done].
    - rewrite Hc. intros [= <-]. eexists. split; [by apply list_lookup_insert_eq|].
      split; [apply lookup_delete_eq | done]. }
  pose proof (read_config_outcome E _ _ _ _ _ _ _ _ _ Hrd1 Hread) as Ho.
  inversion Ho as [l0 Hhit|c w0 _ _ _ Hcf|]; subst; [congruence|].
  rewrite Hcf1 in *. split; [done|]. split; [lia|]. rewrite Hcf. split.
  - by rewrite lookup_app_l.
  - exists c. by rewrite lookup_app_r, Nat.sub_diag.
Qed.

Lemma reload_then_read_is_fresh_witness :
  reload 0%nat (Some "a.json") cached_world
    = Some (Ok (), World {[ "/d" := 0%nat ]} [Reader "/d" YamlParser ∅] [∅] []) ∧
  ∃ l' w2,
    read_config sample_extern no_files 0%nat "a.json" ArgNone (VDict ∅)
      (World {[ "/d" := 0%nat ]} [Reader "/d" YamlParser ∅] [∅] [])
    = Some (Ok l', w2) ∧
    l' ≠ 0%nat.
Proof.
  split; [reflexivity|].
  assert (∃ w2, read_config sample_extern no_files 0%nat "a.json" ArgNone (VDict ∅)
                  (World {[ "/d" := 0%nat ]} [Reader "/d" YamlParser ∅] [∅] [])
                = Some (Ok 1%nat, w2)) as [w2 H].
  { eexists. vm_compute. reflexivity. }
  exists 1%nat, w2. split; [exact H|].
  assert (caches_ok cached_world) as Hok.
  { split.
    - intros s n l (rd & Hrd & Hc). destruct s as [|s]; [|done].
      injection Hrd as <-. simpl in Hc.
      apply lookup_singleton_Some in Hc as [_ <-]. simpl. lia.
    - intros s n s' n' l (rd & Hrd & Hc) (rd' & Hrd' & Hc').
      destruct s as [|s]; [|done]. destruct s' as [|s']; [|done].
      injection Hrd as <-. injection Hrd' as <-. simpl in Hc, Hc'.
      apply lookup_singleton_Some in Hc as [<- _].
      apply lookup_singleton_Some in Hc' as [<- _]. done. }
  exact (proj1 (proj2 (reload_then_read_is_fresh sample_extern no_files cached_world
                         _ w2 0%nat (Reader "/d" YamlParser {[ "a.json" := 0%nat ]})
                         "a.json" 0%nat 1%nat ArgNone (VDict ∅)
                         Hok eq_refl eq_refl eq_refl H))).
Defined.

(** ** The auto-vivifying dictionary *)

Section AutoMDDictFacts.

Context {K V : Type} `{Countable K}.

(** X25. Reading a missing key of an [AutoMDDict] does not raise: it
    creates an empty dictionary, stores it under the key and returns it,
    leaving every other key and every other dictionary as they were; the
    key is present from then on, so reading it again returns the same
    object and changes nothing. *)
Theorem md_getitem_missing (self : loc) (item : K)
    (h : list (gmap K (md_item V))) (d : gmap K (md_item V)) :
  h !! self = Some d → d !! item = None →
  ∃ h',
    md_getitem self item h = Some (MdDict (length h), h') ∧
    h' !! length h = Some ∅ ∧
    h' !! self = Some (<[item := MdDict (length h)]> d) ∧
    (∀ i, i ≠ self → (i < length h)%nat → h' !! i = h !! i) ∧
    md_getitem self item h' = Some (MdDict (length h), h').
Proof.
  intros Hd Hi.
  assert (self < length h)%nat as Hlt by (by eapply lookup_lt_Some).
  exists (<[self := <[item := MdDict (length h)]> d]> (h ++ [∅])%list).
  assert ((<[self := <[item := MdDict (length h)]> d]> (h ++ [∅])%list) !! self
          = Some (<[item := MdDict (length h)]> d)) as Hself.
  { apply list_lookup_insert_eq. rewrite length_app. lia. }
  split; [unfold md_getitem; rewrite Hd; simpl; by rewrite Hi|].
  split.
  { rewrite list_lookup_insert_ne; [|lia]. by rewrite lookup_app_r, Nat.sub_diag. }
  split; [done|]. split.
  - intros i Hne Hi'. rewrite list_lookup_insert_ne; [|done]. by rewrite lookup_app_l.
  - unfold md_getitem. rewrite Hself. simpl. by rewrite lookup_insert_eq.
Qed.

(** X26. [a[k1][k2] = x] on a dictionary [a] without the key [k1]
    builds the inner dictionary on the way, and afterwards [a[k1]] is
    that inner dictionary and [a[k1][k2]] is [x]. *)
Theorem md_nested_assignment (self : loc) (k1 k2 : K) (x : md_item V)
    (h : list (gmap K (md_item V))) (d : gmap K (md_item V)) :
  h !! self = Some d → d !! k1 = None →
  ∃ l h1 h2,
    md_getitem self k1 h = Some (MdDict l, h1) ∧
    md_setitem l k2 x h1 = Some h2 ∧
    md_getitem self k1 h2 = Some (MdDict l, h2) ∧
    md_getitem l k2 h2 = Some (x, h2).
Proof.
  intros Hd Hk.
  destruct (md_getitem_missing self k1 h d Hd Hk) as (h1 & Hg & Hnew & Hself & _ & _).
  assert (self < length h)%nat as Hlt by (by eapply lookup_lt_Some).
  assert (length h < length h1)%nat as Hlt1 by (by eapply lookup_lt_Some).
  exists (length h), h1, (<[length h := <[k2 := x]> ∅]> h1).
  split; [done|]. split; [unfold md_setitem; by rewrite Hnew|].
  split.
  - unfold md_getitem. rewrite list_lookup_insert_ne; [|lia]. rewrite Hself. simpl.
    by rewrite lookup_insert_eq.
  - unfold md_getitem. rewrite list_lookup_insert_eq; [|done]. simpl.
    by rewrite lookup_insert_eq.
Qed.

End AutoMDDictFacts.

Lemma md_getitem_missing_witness :
  ∃ h', md_getitem (K:=Z) (V:=string) 0%nat 2 [{[ 1 := MdVal "a" ]}]
        = Some (MdDict 1%nat, h').
Proof.
  assert (({[ 1 := MdVal "a" ]} : gmap Z (md_item string)) !! 2 = None) as Hk
    by (vm_compute; reflexivity).
  destruct (md_getitem_missing (K:=Z) (V:=string) 0%nat 2 [{[ 1 := MdVal "a" ]}]
              {[ 1 := MdVal "a" ]} eq_refl Hk) as (h' & Hg & _).
  exists h'. exact Hg.
Defined.

Lemma md_nested_assignment_witness :
  ∃ l h2, md_getitem (K:=Z) (V:=string) l 1 h2 = Some (MdVal "b", h2).
Proof.
  assert (({[ 1 := MdVal "a" ]} : gmap Z (md_item string)) !! 2 = None) as Hk
    by (vm_compute; reflexivity).
  destruct (md_nested_assignment (K:=Z) (V:=string) 0%nat 2 1 (MdVal "b")
              [{[ 1 := MdVal "a" ]}] {[ 1 := MdVal "a" ]} eq_refl Hk)
    as (l & h1 & h2 & _ & _ & _ & Hget).
  exists l, h2. exact Hget.
Defined.

(** ** More error paths of [read_config] *)

(** X27. For a name that is not cached, with no explicit parser and no
    registered extension, a file that cannot be opened means that no
    parser is called at all: the failure comes from reading the first
    line, and the call answers with the default or with
    [ConfigurationError] as for any missing file. *)
Theorem read_config_no_parser_call (E : Extern) (fs : filesystem) (w : world)
    (self : loc) (rd : reader) (name : string) (parser : parser_arg) (d : pyval) :
  readers w !! self = Some rd →
  cache rd !! name = None →
  truthy parser = false →
  rsplit_dot_1 (os_path_join (config_dir rd) name) ≫= (parsers_dict !!.) = None →
  fs (os_path_join (config_dir rd) name) = None →
  ∃ r w',
    read_config E fs self name parser d w = Some (r, w') ∧
    parse_log w' = parse_log w ∧
    (is_raise d = true →
     r = Raise (ConfigurationError "Configuration file not found: %s"
                  (os_path_join (config_dir rd) name))) ∧
    (∀ c, is_raise d = false → Config_new E d = Ok c →
          r = Ok (length (configs w)) ∧ configs w' !! length (configs w) = Some c).
Proof.
  intros Hrd Hc Ht Hext Hfs. unfold read_config. rewrite Hrd. simpl. rewrite Hc.
  unfold try_parse, resolve_parser, get_parser_from_file, open_read.
  rewrite Ht, Hext, Hfs. simpl.
  destruct (is_raise d).
  - eexists _, _. split; [done|]. split; [done|]. split; [done|]. done.
  - destruct (Config_new E d) as [c|e].
    + eexists _, _. split; [done|]. simpl. split; [done|]. split; [done|].
      intros c' _ [= <-]. split; [done|]. by rewrite lookup_app_r, Nat.sub_diag.
    + eexists _, _. split; [done|]. split; [done|]. split; [done|]. done.
Qed.

Lemma read_config_no_parser_call_witness :
  ∃ r w', read_config sample_extern no_files 0%nat "settings" ArgNone (VDict ∅)
            fresh_world = Some (r, w') ∧
          parse_log w' = [].
Proof.
  destruct (read_config_no_parser_call sample_extern no_files fresh_world 0%nat
              (Reader "/d" YamlParser ∅) "settings" ArgNone (VDict ∅)
              eq_refl eq_refl eq_refl eq_refl eq_refl) as (r & w' & H & Hlog & _).
  exists r, w'. split; [exact H | exact Hlog].
Defined.

(** X28. For a name that is not cached, an explicit parser name that is
    not a key of the registry makes [read_config] raise [KeyError] for
    that name, whether the file exists or not and whatever the default:
    no parser is called and the state is untouched. *)
Theorem read_config_unknown_parser_name (E : Extern) (fs : filesystem) (w : world)
    (self : loc) (rd : reader) (name pname : string) (d : pyval) :
  readers w !! self = Some rd →
  cache rd !! name = None →
  pname ≠ "" →
  parsers_dict !! pname = None →
  read_config E fs self name (ArgName pname) d w = Some (Raise (KeyError pname), w).
Proof.
  intros Hrd Hc Hne Hp. unfold read_config. rewrite Hrd. simpl. rewrite Hc.
  unfold try_parse, resolve_parser. simpl.
  destruct (String.eqb_spec pname "") as [->|_]; [done|]. simpl. by rewrite Hp.
Qed.

Lemma read_config_unknown_parser_name_witness :
  read_config sample_extern yaml_in_json_file 0%nat "a.json" (ArgName "yml")
    (VDict ∅) fresh_world = Some (Raise (KeyError "yml"), fresh_world).
Proof.
  apply (read_config_unknown_parser_name sample_extern yaml_in_json_file fresh_world
           0%nat (Reader "/d" YamlParser ∅) "a.json" "yml" (VDict ∅));
    [reflexivity | reflexivity | discriminate | reflexivity].
Defined.

(** ** The sentinel on a missing key *)

(** X29. For a missing key the default itself is what gets converted.
    Under the default ["raise"], [get_boolean] therefore raises the
    error that names the key, while [get_int] and [get_float] raise the
    error of converting the word [raise], which does not name it. *)
Theorem missing_key_under_sentinel (fl : string → option spec_float)
    (states : gmap string bool) (self : Config) (k k' : string) :
  getitem self k = Raise (KeyError k') →
  states !! "raise" = None →
  fl "raise" = None →
  get_boolean states self k (VStr "raise")
    = Raise (ValueError ("Not a leaf or not a boolean: " ++ k)) ∧
  get_int self k (VStr "raise")
    = Raise (ValueError "invalid literal for int() with base 10: 'raise'") ∧
  get_float fl self k (VStr "raise")
    = Raise (ValueError "could not convert string to float: raise").
Proof.
  intros Hg Hst Hfl. unfold get_boolean, get_int, get_float, get. rewrite Hg.
  split; [|split].
  - cbn [rbind boolean_literal]. change (lower "raise") with "raise".
    by rewrite Hst.
  - reflexivity.
  - cbn [rbind py_float]. by rewrite Hfl.
Qed.

Lemma missing_key_under_sentinel_witness :
  get_int ∅ "port" (VStr "raise")
    = Raise (ValueError "invalid literal for int() with base 10: 'raise'").
Proof.
  apply (missing_key_under_sentinel (fun _ => None) default_boolean_states ∅
           "port" "port"); reflexivity.
Defined.
